(** * HF Radio Blackout Forecasting API server: a shallow embedding

    The server (an Express application) validates a request, optionally
    stages a CSV file, spawns the Python predictor, parses what the
    predictor prints as JSON and relays it.  This development embeds the
    route handlers and [executePython] as functions over an explicit
    world (file system, clock, environment, the child process's events)
    and settles the properties claimed of them.

    Conventions:
    - a JavaScript value is a [value]: what [JSON.parse] produces, or
      [undefined];
    - a JavaScript number is an IEEE 754 binary64, here a primitive [float];
    - an [async] function is a computation in the monad [M]: it returns,
      throws (rejects), or stays pending for ever;
    - the body of a response is the value handed to [res.json]. *)

From Stdlib Require Import PrimFloat ZArith Ascii.
From stdpp Require Import gmap strings pretty.

Set Default Proof Using "Type".
Set Warnings "-register-all".

(** ** Strings *)

Module Str.

(** The line feed, written ['\n'] in the source. *)
Definition nl : string := String "010"%char "".

(** [s.startsWith(p)] *)
Fixpoint startsWith (s p : string) : bool :=
  match p, s with
  | EmptyString, _ => true
  | String a p', String b s' => Ascii.eqb a b && startsWith s' p'
  | String _ _, EmptyString => false
  end.

(** [s.includes(n)] *)
Fixpoint includes (s n : string) : bool :=
  startsWith s n ||
  match s with
  | EmptyString => false
  | String _ s' => includes s' n
  end.

(** [s.endsWith(suf)] *)
Fixpoint endsWith (s suf : string) : bool :=
  String.eqb s suf ||
  match s with
  | EmptyString => false
  | String _ s' => endsWith s' suf
  end.

(** [l.join(sep)] on strings *)
Fixpoint join (sep : string) (l : list string) : string :=
  match l with
  | [] => ""
  | [x] => x
  | x :: l' => x +:+ sep +:+ join sep l'
  end.

(** [s.split('/')], with the segment being read in [cur]. *)
Fixpoint split_slash (cur : string) (s : string) : list string :=
  match s with
  | EmptyString => [cur]
  | String c s' =>
      if Ascii.eqb c "/"%char then cur :: split_slash "" s'
      else split_slash (cur +:+ String c "") s'
  end.

Definition nonempty (s : string) : bool :=
  match s with EmptyString => false | _ => true end.

End Str.

(** ** POSIX paths, as Node's [path] module computes them *)

Module Path.

(** One step of [normalizeString]: [.] and empty segments vanish, [..]
    removes the segment before it; above the start of a relative path
    it is kept, above the root it vanishes.  [stack] is in reverse. *)
Definition push (absolute : bool) (stack : list string) (seg : string)
  : list string :=
  if String.eqb seg "" || String.eqb seg "." then stack
  else if String.eqb seg ".." then
    match stack with
    | top :: rest => if String.eqb top ".." then seg :: stack else rest
    | [] => if absolute then [] else [seg]
    end
  else seg :: stack.

Definition normalize (p : string) : string :=
  if String.eqb p "" then "." else
  let absolute := Str.startsWith p "/" in
  let trailing := Str.endsWith p "/" in
  let body := Str.join "/" (rev (fold_left (push absolute) (Str.split_slash "" p) [])) in
  let body := if String.eqb body "" && negb absolute then "." else body in
  let body := if Str.nonempty body && trailing then body +:+ "/" else body in
  if absolute then "/" +:+ body else body.

(** [path.join(...parts)] *)
Definition join (parts : list string) : string :=
  match List.filter Str.nonempty parts with
  | [] => "."
  | l => normalize (Str.join "/" l)
  end.

(** [path.dirname(p)] for a normalized path without trailing slash. *)
Definition dirname (p : string) : string :=
  match rev (Str.split_slash "" p) with
  | [] | [_] => "."
  | _ :: parents =>
      let d := Str.join "/" (rev parents) in
      if String.eqb d "" then "/" else d
  end.

End Path.

(** ** JavaScript values and coercions *)

(** The values the handlers compute with: what [JSON.parse] (or
    [express.json()], which calls it) produces, and [undefined], which
    reading an absent property gives.  An object keeps its own
    properties in order. *)
Inductive value : Type :=
  | VUndefined
  | VNull
  | VBool (b : bool)
  | VNum (x : float)
  | VString (s : string)
  | VArray (elems : list value)
  | VObject (props : list (string * value)).

(** The result of evaluating an expression: a value, or a thrown [Error]
    of which only the [message] is kept. *)
Inductive completion (A : Type) : Type :=
  | Val (a : A)
  | Thrown (message : string).
Arguments Val {A} a.
Arguments Thrown {A} message.

Definition cbind {A B} (c : completion A) (k : A → completion B) : completion B :=
  match c with
  | Val a => k a
  | Thrown m => Thrown m
  end.

(** The functions of the JavaScript runtime that the server calls and that
    are not modelled further.  [JSON_parse] throws a [SyntaxError] on
    malformed text. *)
Class Runtime : Type := {
  JSON_parse : string → completion value;
  StringToNumber : string → float;
  NumberToString : float → string;
}.

Module JS.

(** Own property of an object. *)
Fixpoint own (k : string) (props : list (string * value)) : value :=
  match props with
  | [] => VUndefined
  | (k', v) :: rest => if String.eqb k k' then v else own k rest
  end.

Definition has_own (k : string) (props : list (string * value)) : bool :=
  existsb (λ p, String.eqb k p.1) props.

(** [v.k] for a property name [k] that no prototype defines (such as
    [datetime], [flare_probability], [forecasts], [success]): reading a
    property of [null] or [undefined] throws, a primitive or an array
    has none. *)
Definition get (v : value) (k : string) : completion value :=
  match v with
  | VUndefined =>
      Thrown ("Cannot read properties of undefined (reading '" +:+ k +:+ "')")
  | VNull => Thrown ("Cannot read properties of null (reading '" +:+ k +:+ "')")
  | VObject props => Val (own k props)
  | _ => Val VUndefined
  end.

(** Truthiness, as tested by [!v] and [||]. *)
Definition truthy (v : value) : bool :=
  match v with
  | VUndefined | VNull => false
  | VBool b => b
  | VNum x => negb (PrimFloat.eqb x 0) && PrimFloat.eqb x x
  | VString s => Str.nonempty s
  | VArray _ | VObject _ => true
  end.

(** [!v] *)
Definition not (v : value) : bool := negb (truthy v).

(** [v === undefined] *)
Definition is_undefined (v : value) : bool :=
  match v with
  | VUndefined => true
  | _ => false
  end.

(** [Array.isArray(v)] *)
Definition isArray (v : value) : bool :=
  match v with
  | VArray _ => true
  | _ => false
  end.

(** The elements of an array, which [for ... of] visits and [length]
    counts. *)
Definition elements (v : value) : list value :=
  match v with
  | VArray l => l
  | _ => []
  end.

Section Coercions.
Context `{Runtime}.

(** [String(v)], which a template literal applies.  An object parsed from
    JSON has no callable property of its own, so one with an own
    [toString] cannot be converted; any other prints as
    [[object Object]].  An array joins its elements with commas, [null]
    and [undefined] elements printing empty. *)
Fixpoint ToString (v : value) : completion string :=
  match v with
  | VUndefined => Val "undefined"
  | VNull => Val "null"
  | VBool true => Val "true"
  | VBool false => Val "false"
  | VNum x => Val (NumberToString x)
  | VString s => Val s
  | VArray elems =>
      (fix joined (l : list value) : completion string :=
         match l with
         | [] => Val ""
         | e :: l' =>
             cbind (match e with
                    | VUndefined | VNull => Val ""
                    | _ => ToString e
                    end) (λ s,
             match l' with
             | [] => Val s
             | _ => cbind (joined l') (λ r, Val (s +:+ "," +:+ r))
             end)
         end) elems
  | VObject props =>
      if has_own "toString" props
      then Thrown "Cannot convert object to primitive value"
      else Val "[object Object]"
  end.

(** [Number(v)], which [<] and [>] apply to an operand compared with a
    number. *)
Definition ToNumber (v : value) : completion float :=
  match v with
  | VUndefined => Val PrimFloat.nan
  | VNull => Val 0%float
  | VBool true => Val 1%float
  | VBool false => Val 0%float
  | VNum x => Val x
  | VString s => Val (StringToNumber s)
  | VArray _ | VObject _ => cbind (ToString v) (λ s, Val (StringToNumber s))
  end.

(** [v < n] and [v > n] for a number [n]. *)
Definition lt (v : value) (n : float) : completion bool :=
  cbind (ToNumber v) (λ x, Val (PrimFloat.ltb x n)).
Definition gt (v : value) (n : float) : completion bool :=
  cbind (ToNumber v) (λ x, Val (PrimFloat.ltb n x)).

(** The method call [v.toString()], [callee] being the text of [v] in the
    source, for the error message. *)
Definition toString (callee : string) (v : value) : completion string :=
  match v with
  | VUndefined => Thrown "Cannot read properties of undefined (reading 'toString')"
  | VNull => Thrown "Cannot read properties of null (reading 'toString')"
  | VObject props =>
      if has_own "toString" props
      then Thrown (callee +:+ ".toString is not a function")
      else Val "[object Object]"
  | _ => ToString v
  end.

End Coercions.

(** [n] as a number, for a [length] (exact below [2^53]). *)
Fixpoint of_nat (n : nat) : float :=
  match n with
  | O => 0%float
  | S n' => (of_nat n' + 1)%float
  end.

End JS.

(** ** The world a request runs in *)

(** A file system entry. *)
Inductive node : Type :=
  | File (content : string)
  | Dir.

(** What the spawned child process does, as the events Node emits for it:
    chunks on its output streams, [close] with its exit code ([None] when
    a signal ended it), [error] when it could not be started. *)
Inductive ProcEvent : Type :=
  | StdoutData (data : string)
  | StderrData (data : string)
  | Close (code : option Z)
  | ErrorEv (message : string).

Record World : Type := mkWorld {
  fs : gmap string node;            (* the disk, by path *)
  clock : Z;                        (* [Date.now()] *)
  PYTHON_PATH : option string;      (* [process.env.PYTHON_PATH] *)
  child : list ProcEvent;           (* the events of the process spawned *)
  spawned : list (string * list value); (* the calls of [spawn], latest first *)
  console : list string;            (* what [console.error] printed *)
}.

Definition set_fs (f : gmap string node → gmap string node) (w : World) : World :=
  mkWorld (f (fs w)) (clock w) (PYTHON_PATH w) (child w) (spawned w) (console w).
Definition log_spawn (cmd : string) (args : list value) (w : World) : World :=
  mkWorld (fs w) (clock w) (PYTHON_PATH w) (child w) ((cmd, args) :: spawned w) (console w).
Definition log_console (line : string) (w : World) : World :=
  mkWorld (fs w) (clock w) (PYTHON_PATH w) (child w) (spawned w) (line :: console w).

(** How an [await] (or a handler) ends. *)
Inductive outcome (A : Type) : Type :=
  | Ret (a : A)               (* fulfilled with a value *)
  | Throw (message : string)  (* rejected, or an exception thrown *)
  | Pending                   (* never settled *)
  | Crash (message : string). (* an uncaught exception ends the server *)
Arguments Ret {A} a.
Arguments Throw {A} message.
Arguments Pending {A}.
Arguments Crash {A} message.

(** Asynchronous computations over the world. *)
Definition M (A : Type) : Type := World → outcome A * World.

Definition throw {A} (m : string) : M A := λ w, (Throw m, w).

#[global] Instance M_ret : MRet M := λ A a w, (Ret a, w).
#[global] Instance M_bind : MBind M := λ A B k c w,
  match c w with
  | (Ret a, w') => k a w'
  | (Throw m, w') => (Throw m, w')
  | (Pending, w') => (Pending, w')
  | (Crash m, w') => (Crash m, w')
  end.

(** [try { c } catch (err) { h(err.message) }] *)
Definition try_catch {A} (c : M A) (h : string → M A) : M A := λ w,
  match c w with
  | (Throw m, w') => h m w'
  | r => r
  end.

(** An expression evaluated inside an [async] function. *)
Definition lift {A} (c : completion A) : M A :=
  match c with
  | Val a => mret a
  | Thrown m => throw m
  end.

(** [console.error(line)] *)
Definition console_error (line : string) : M unit := λ w,
  (Ret (), log_console line w).

(** [Date.now()] *)
Definition Date_now : M Z := λ w, (Ret (clock w), w).

(** *** The file system, as [fs.promises] shows it *)

Module Fs.

Definition enoent (call path : string) : string :=
  "ENOENT: no such file or directory, " +:+ call +:+ " '" +:+ path +:+ "'".
Definition eisdir (call path : string) : string :=
  "EISDIR: illegal operation on a directory, " +:+ call +:+ " '" +:+ path +:+ "'".
Definition enotdir (call path : string) : string :=
  "ENOTDIR: not a directory, " +:+ call +:+ " '" +:+ path +:+ "'".

(** [fs.access(path)] *)
Definition access (path : string) : M unit := λ w,
  match fs w !! path with
  | Some _ => (Ret (), w)
  | None => (Throw (enoent "access" path), w)
  end.

(** [fs.writeFile(path, content)]: creates or replaces a regular file in
    an existing directory. *)
Definition writeFile (path content : string) : M unit := λ w,
  match fs w !! path with
  | Some Dir => (Throw (eisdir "open" path), w)
  | _ =>
      match fs w !! Path.dirname path with
      | Some Dir => (Ret (), set_fs <[path := File content]> w)
      | _ => (Throw (enoent "open" path), w)
      end
  end.

(** [fs.unlink(path)] *)
Definition unlink (path : string) : M unit := λ w,
  match fs w !! path with
  | Some (File _) => (Ret (), set_fs (delete path) w)
  | Some Dir => (Throw (eisdir "unlink" path), w)
  | None => (Throw (enoent "unlink" path), w)
  end.

(** The name of [path] inside directory [dir], when it is an entry of it. *)
Fixpoint entry_name (dir path : string) : option string :=
  match dir, path with
  | EmptyString, String c name =>
      if Ascii.eqb c "/"%char && Str.nonempty name && negb (Str.includes name "/")
      then Some name else None
  | String a dir', String b path' =>
      if Ascii.eqb a b then entry_name dir' path' else None
  | _, EmptyString => None
  end.

Definition entries (disk : gmap string node) (dir : string) : list string :=
  omap (entry_name dir) (map_to_list disk).*1.

(** [fs.readdir(dir)] *)
Definition readdir (dir : string) : M (list string) := λ w,
  match fs w !! dir with
  | Some Dir => (Ret (entries (fs w) dir), w)
  | Some (File _) => (Throw (enotdir "scandir" dir), w)
  | None => (Throw (enoent "scandir" dir), w)
  end.

End Fs.

(** ** The server *)

Record Response : Type := mkResponse {
  status : nat;
  body : value;
}.

(** [res.status(code).json(payload)]; [res.json(payload)] has code 200. *)
Definition respond (code : nat) (payload : value) : M Response :=
  mret (mkResponse code payload).

(** [{ success: false, error: message }] *)
Definition failure (message : string) : value :=
  VObject [("success", VBool false); ("error", VString message)].

(** What [executePython] has captured of its child so far, and how its
    promise stands. *)
Record Capture : Type := mkCapture {
  stdout : string;
  stderr : string;
  settled : option (completion value);
}.

(** [resolve] and [reject] act on a promise once. *)
Definition settle (c : completion value) (st : Capture) : Capture :=
  match settled st with
  | None => mkCapture (stdout st) (stderr st) (Some c)
  | Some _ => st
  end.

(** [code !== 0] *)
Definition nonzero (code : option Z) : bool :=
  match code with
  | Some 0%Z => false
  | _ => true
  end.

Section Server.
Context `{Runtime}.

(** [__dirname], the directory the server is deployed in. *)
Variable dirname : string.

Definition PYTHON_SCRIPT : string := Path.join [dirname; "predict.py"].
Definition MODEL_PATH : string := Path.join [dirname; "hf_blackout_model.pkl"].
Definition FORECASTS_DIR : string := Path.join [dirname; "forecasts"].

(** The listeners [executePython] registers on the child. *)
Definition on_event (st : Capture) (ev : ProcEvent) : Capture :=
  match ev with
  | StdoutData data => mkCapture (stdout st +:+ data) (stderr st) (settled st)
  | StderrData data => mkCapture (stdout st) (stderr st +:+ data) (settled st)
  | Close code =>
      if nonzero code then
        settle (Thrown ("Python script failed: " +:+ stderr st)) st
      else
        match JSON_parse (stdout st) with
        | Val result => settle (Val result) st
        | Thrown message =>
            settle (Thrown ("Failed to parse Python output: " +:+ message)) st
        end
  | ErrorEv message =>
      settle (Thrown ("Failed to start Python: " +:+ message)) st
  end.

Definition capture (events : list ProcEvent) : Capture :=
  fold_left on_event events (mkCapture "" "" None).

(** [process.env.PYTHON_PATH || 'python'] *)
Definition pythonPath (w : World) : string :=
  match PYTHON_PATH w with
  | Some p => if Str.nonempty p then p else "python"
  | None => "python"
  end.

(** Execute Python script and return parsed JSON result. *)
Definition executePython (args : list value) : M value := λ w,
  let w' := log_spawn (pythonPath w) (VString PYTHON_SCRIPT :: args) w in
  match settled (capture (child w)) with
  | Some (Val result) => (Ret result, w')
  | Some (Thrown message) => (Throw message, w')
  | None => (Pending, w')
  end.

(** Load model information from pickle file (no route calls it). *)
Definition getModelInfo : M value :=
  try_catch (executePython [VString "info"])
    (λ _, mret (VObject [("version", VString "1.0");
                         ("model_type", VString "LogisticRegression");
                         ("features", VNum 7%float);
                         ("note", VString "Model info extraction requires Python script update")])).

(** The end of every prediction handler:
    [if (!result.success) return res.status(500).json(result); res.json(result)]. *)
Definition relay (result : value) : M Response :=
  success ← lift (JS.get result "success");
  if JS.not success then respond 500 result else respond 200 result.

(** The [catch] of every handler. *)
Definition on_error (message : string) : M Response :=
  respond 500 (failure message).

(** [POST /predict/single] *)
Definition predict_single (req_body : value) : M Response :=
  try_catch
    (datetime ← lift (JS.get req_body "datetime");
     flare_probability ← lift (JS.get req_body "flare_probability");
     if JS.not datetime || JS.is_undefined flare_probability then
       respond 400 (failure "Missing required fields: datetime, flare_probability")
     else
       below ← lift (JS.lt flare_probability 0);
       outside ← (if below : bool then mret true else lift (JS.gt flare_probability 1));
       if outside : bool then
         respond 400 (failure "flare_probability must be between 0 and 1")
       else
         probability ← lift (JS.toString "flare_probability" flare_probability);
         result ← executePython [datetime; VString probability];
         relay result)
    on_error.

(** The loop of [POST /predict/batch] over the forecasts: the CSV text, or
    the response of the [return] that leaves the handler. *)
Fixpoint csv_rows (forecasts : list value) (csvContent : string)
  : completion (Response + string) :=
  match forecasts with
  | [] => Val (inr csvContent)
  | forecast :: rest =>
      cbind (JS.get forecast "datetime") (λ datetime,
      cbind (JS.get forecast "flare_probability") (λ flare_probability,
      if JS.not datetime || JS.is_undefined flare_probability then
        Val (inl (mkResponse 400
          (failure "Each forecast must have datetime and flare_probability")))
      else
        cbind (JS.ToString datetime) (λ d,
        cbind (JS.ToString flare_probability) (λ p,
        csv_rows rest (csvContent +:+ d +:+ "," +:+ p +:+ Str.nl)))))
  end.

(** [POST /predict/batch] *)
Definition predict_batch (req_body : value) : M Response :=
  try_catch
    (forecasts ← lift (JS.get req_body "forecasts");
     if JS.not forecasts || negb (JS.isArray forecasts)
        || (length (JS.elements forecasts) =? 0)%nat then
       respond 400 (failure "Missing or invalid forecasts array")
     else
       now ← Date_now;
       let tempCsvPath := Path.join ["uploads"; "temp_" +:+ pretty now +:+ ".csv"] in
       rows ← lift (csv_rows (JS.elements forecasts)
                      ("DateTime,flare_probability" +:+ Str.nl));
       match rows with
       | inl response => mret response
       | inr csvContent =>
           Fs.writeFile tempCsvPath csvContent;;
           result ← executePython [VString "batch"; VString tempCsvPath];
           try_catch (Fs.unlink tempCsvPath)
             (λ err, console_error ("Error deleting temp file: " +:+ err));;
           relay result
       end)
    on_error.

(** [POST /predict/upload]; [req_file] is [req.file], which the upload
    middleware sets to the stored file when the form carries one, and
    [path] its [path]. *)
Definition predict_upload (req_file : option string) : M Response :=
  try_catch
    (match req_file with
     | None => respond 400 (failure "No file uploaded")
     | Some path =>
         result ← executePython [VString "batch"; VString path];
         try_catch (Fs.unlink path)
           (λ err, console_error ("Error deleting uploaded file: " +:+ err));;
         relay result
     end)
    on_error.

(** [GET /predict/csv/:filename] *)
Definition predict_csv (filename : string) : M Response :=
  try_catch
    (if Str.includes filename ".." || Str.includes filename "/" then
       respond 400 (failure "Invalid filename")
     else
       let csvPath := Path.join [FORECASTS_DIR; filename] in
       missing ← try_catch (Fs.access csvPath;; mret None)
                   (λ _, mret (Some (mkResponse 404
                      (failure ("File not found: " +:+ filename)))));
       match missing with
       | Some response => mret response
       | None =>
           result ← executePython [VString "batch"; VString csvPath];
           relay result
       end)
    on_error.

(** [GET /forecasts] *)
Definition forecasts : M Response :=
  try_catch
    (files ← Fs.readdir FORECASTS_DIR;
     let csvFiles := List.filter (λ f, Str.endsWith f ".csv") files in
     respond 200 (VObject [("success", VBool true);
                           ("count", VNum (JS.of_nat (length csvFiles)));
                           ("files", VArray (VString <$> csvFiles))]))
    on_error.

(** The script [GET /model/info] writes: a template literal around
    [MODEL_PATH]. *)
Definition pythonCode : string :=
  Str.join Str.nl
    [ "";
      "import pickle";
      "import json";
      "";
      "with open('" +:+ MODEL_PATH +:+ "', 'rb') as f:";
      "    pkg = pickle.load(f)";
      "";
      "info = {";
      "    'version': pkg['version'],";
      "    'model_type': pkg['model_type'],";
      "    'training_date': pkg['training_date'],";
      "    'training_samples': pkg['training_samples'],";
      "    'test_samples': pkg['test_samples'],";
      "    'features': pkg['feature_names'],";
      "    'performance': pkg['performance'],";
      "    'solar_cycle_info': pkg['solar_cycle_info']";
      "}";
      "";
      "print(json.dumps(info))";
      "" ].

(** The listeners [GET /model/info] registers on its own child: the two
    streams are collected, [close] answers the request, and [error] has
    no listener, so that Node throws it and exits. *)
Fixpoint info_child (tempScript : string) (events : list ProcEvent)
    (stdout stderr : string) : M Response :=
  match events with
  | [] => λ w, (Pending, w)
  | StdoutData data :: rest => info_child tempScript rest (stdout +:+ data) stderr
  | StderrData data :: rest => info_child tempScript rest stdout (stderr +:+ data)
  | ErrorEv message :: _ => λ w, (Crash message, w)
  | Close code :: _ =>
      try_catch (Fs.unlink tempScript) (λ _, mret ());;
      if nonzero code then respond 500 (failure stderr)
      else
        match JSON_parse stdout with
        | Val info =>
            respond 200 (VObject [("success", VBool true); ("model", info)])
        | Thrown _ => respond 500 (failure "Failed to parse model info")
        end
  end.

(** [spawn('python3', [tempScript])] and what follows from its events. *)
Definition spawn_info (tempScript : string) : M Response := λ w,
  info_child tempScript (child w) "" ""
    (log_spawn "python3" [VString tempScript] w).

(** [GET /model/info] *)
Definition model_info : M Response :=
  try_catch
    (now ← Date_now;
     let tempScript := Path.join ["uploads"; "info_" +:+ pretty now +:+ ".py"] in
     Fs.writeFile tempScript pythonCode;;
     spawn_info tempScript)
    on_error.

(** The operations that ask the predictor for a prediction. *)
Inductive Prediction : Type :=
  | Single (req_body : value)
  | Batch (req_body : value)
  | Upload (req_file : option string)
  | Csv (filename : string).

Definition predict (op : Prediction) : M Response :=
  match op with
  | Single req_body => predict_single req_body
  | Batch req_body => predict_batch req_body
  | Upload req_file => predict_upload req_file
  | Csv filename => predict_csv filename
  end.

End Server.

(** ** A small runtime, to run the handlers on concrete requests

    [Mini.parse] reads the JSON texts without escapes and exponents,
    with at most 15 digits in a number, no repeated key and no key that
    starts with a digit; any other text it refuses.  [Mini.to_number]
    reads such decimals, and [Mini.number_to_string] prints the numbers
    from [1e-6] on whose shortest decimal form has digits that make an
    integer below [2^52]; any other text is no number to them.  The
    properties below are proved for every [Runtime]; this one runs the
    examples. *)

Module Mini.

Definition is_ws (c : ascii) : bool :=
  Ascii.eqb c " "%char || Ascii.eqb c "009"%char
  || Ascii.eqb c "010"%char || Ascii.eqb c "013"%char.

Fixpoint skip_ws (s : string) : string :=
  match s with
  | String c s' => if is_ws c then skip_ws s' else s
  | EmptyString => s
  end.

Definition dquote : ascii := "034"%char.

Definition digit (c : ascii) : option float :=
  let n := nat_of_ascii c in
  if (48 <=? n)%nat && (n <=? 57)%nat then Some (JS.of_nat (n - 48)) else None.

(** Digits read into [m] (the number so far) and [scale] (ten to the
    count of digits read); at most [room] of them. *)
Fixpoint read_digits (room : nat) (s : string) (m scale : float)
  : option (float * float * nat * string) :=
  match s with
  | String c s' =>
      match digit c with
      | Some d =>
          match room with
          | O => None
          | S room' => read_digits room' s' (m * 10 + d)%float (scale * 10)%float
          end
      | None => Some (m, scale, room, s)
      end
  | EmptyString => Some (m, scale, room, s)
  end.

(** An unsigned decimal: integer part without leading zeros, then an
    optional fraction; 15 digits at most, so that the integer they write
    and the power of ten that scales it are floats and their quotient is
    the nearest one. *)
Definition read_decimal (s : string) : option (float * string) :=
  match s with
  | String c s' =>
      match digit c with
      | None => None
      | Some d =>
          '(m, _, room, rest) ←
            (if PrimFloat.eqb d 0 then Some (d, 1%float, 14, s')
             else read_digits 14 s' d 1%float);
          match rest with
          | String "." (String c' frac) =>
              d' ← digit c';
              match room with
              | O => None
              | S room' =>
                  '(m', scale, _, rest') ←
                    read_digits room' frac (m * 10 + d')%float 10%float;
                  Some ((m' / scale)%float, rest')
              end
          | String c' _ =>
              match digit c' with Some _ => None | None => Some (m, rest) end
          | EmptyString => Some (m, rest)
          end
      end
  | EmptyString => None
  end.

Definition read_number (s : string) : option (float * string) :=
  match s with
  | String "-" s' => '(x, rest) ← read_decimal s'; Some ((- x)%float, rest)
  | _ => read_decimal s
  end.

(** The characters of a string up to its closing quote. *)
Fixpoint read_string (s : string) : option (string * string) :=
  match s with
  | String c s' =>
      if Ascii.eqb c dquote then Some ("", s')
      else if Ascii.eqb c "\"%char || (nat_of_ascii c <? 32)%nat
              || (127 <? nat_of_ascii c)%nat then None
      else '(str, rest) ← read_string s'; Some (String c str, rest)
  | EmptyString => None
  end.

Definition expect (c : ascii) (s : string) : option string :=
  match skip_ws s with
  | String c' s' => if Ascii.eqb c c' then Some s' else None
  | EmptyString => None
  end.

Definition literal (word : string) (v : value) (s : string)
  : option (value * string) :=
  if Str.startsWith s word
  then Some (v, String.substring (String.length word) (String.length s) s)
  else None.

Definition key_ok (k : string) (props : list (string * value)) : bool :=
  negb (JS.has_own k props)
  && match k with
     | String c _ => match digit c with Some _ => false | None => true end
     | EmptyString => true
     end.

Fixpoint read_value (fuel : nat) (s : string) : option (value * string) :=
  match fuel with
  | O => None
  | S fuel' =>
      let read_elems :=
        fix read_elems (n : nat) (acc : list value) (s : string) :=
          match n with
          | O => None
          | S n' =>
              '(v, rest) ← read_value fuel' s;
              match skip_ws rest with
              | String "," rest' => read_elems n' (v :: acc) rest'
              | String "]" rest' => Some (VArray (rev (v :: acc)), rest')
              | _ => None
              end
          end in
      let read_props :=
        fix read_props (n : nat) (acc : list (string * value)) (s : string) :=
          match n with
          | O => None
          | S n' =>
              s1 ← expect dquote s;
              '(k, s2) ← read_string s1;
              s3 ← expect ":"%char s2;
              '(v, rest) ← read_value fuel' s3;
              if key_ok k acc then
                match skip_ws rest with
                | String "," rest' => read_props n' ((k, v) :: acc) rest'
                | String "}" rest' => Some (VObject (rev ((k, v) :: acc)), rest')
                | _ => None
                end
              else None
          end in
      match skip_ws s with
      | String "n" _ as t => literal "null" VNull t
      | String "t" _ as t => literal "true" (VBool true) t
      | String "f" _ as t => literal "false" (VBool false) t
      | String "[" s' =>
          match skip_ws s' with
          | String "]" rest => Some (VArray [], rest)
          | _ => read_elems fuel' [] s'
          end
      | String "{" s' =>
          match skip_ws s' with
          | String "}" rest => Some (VObject [], rest)
          | _ => read_props fuel' [] s'
          end
      | String c s' as t =>
          if Ascii.eqb c dquote
          then '(str, rest) ← read_string s'; Some (VString str, rest)
          else '(x, rest) ← read_number t; Some (VNum x, rest)
      | EmptyString => None
      end
  end.

Definition parse (text : string) : completion value :=
  match skip_ws text with
  | EmptyString => Thrown "Unexpected end of JSON input"
  | _ =>
      match read_value (S (String.length text)) text with
      | Some (v, rest) =>
          match skip_ws rest with
          | EmptyString => Val v
          | _ => Thrown "Unexpected non-whitespace character after JSON"
          end
      | None => Thrown "Unexpected token in JSON"
      end
  end.

(** [Number(text)] for a decimal as above, with or without sign, for
    blank text and for [Infinity]; [NaN] otherwise. *)
Fixpoint trim_end (s : string) : string :=
  match s with
  | String c s' =>
      match trim_end s' with
      | EmptyString => if is_ws c then "" else String c ""
      | t => String c t
      end
  | EmptyString => ""
  end.

Definition to_number (text : string) : float :=
  match trim_end (skip_ws text) with
  | EmptyString => 0%float
  | "Infinity" | "+Infinity" => PrimFloat.infinity
  | "-Infinity" => PrimFloat.neg_infinity
  | t =>
      match read_number t with
      | Some (x, EmptyString) => x
      | _ => PrimFloat.nan
      end
  end.

Definition two52 : float := 4503599627370496%float.

(** The nearest integer and the integer below, for [0 <= x < 2^52]. *)
Definition rint (x : float) : float := (x + two52 - two52)%float.
Definition floor (x : float) : float :=
  let r := rint x in if PrimFloat.ltb x r then (r - 1)%float else r.

Definition digit_char (d : float) : ascii :=
  if PrimFloat.ltb d 0.5 then "0" else if PrimFloat.ltb d 1.5 then "1"
  else if PrimFloat.ltb d 2.5 then "2" else if PrimFloat.ltb d 3.5 then "3"
  else if PrimFloat.ltb d 4.5 then "4" else if PrimFloat.ltb d 5.5 then "5"
  else if PrimFloat.ltb d 6.5 then "6" else if PrimFloat.ltb d 7.5 then "7"
  else if PrimFloat.ltb d 8.5 then "8" else "9".

(** The decimal digits of an integer [0 <= n < 2^52]. *)
Fixpoint digits (fuel : nat) (n : float) (acc : string) : string :=
  match fuel with
  | O => acc
  | S fuel' =>
      let q := floor (n / 10) in
      let acc' := String (digit_char (n - q * 10)) acc in
      if PrimFloat.eqb q 0 then acc' else digits fuel' q acc'
  end.

Fixpoint zeros (n : nat) : string :=
  match n with
  | O => ""
  | S n' => String "0" (zeros n')
  end.

(** The integer [r] written with its last [k] digits after the point. *)
Definition fixed (r : float) (k : nat) : string :=
  let ds := digits 16 r "" in
  match k with
  | O => ds
  | _ =>
      let ds := zeros (S k - String.length ds) +:+ ds in
      let n := String.length ds in
      String.substring 0 (n - k) ds +:+ "." +:+ String.substring (n - k) k ds
  end.

(** The least count [k] of decimals, from [k] on, with which [x] is
    written exactly. *)
Fixpoint shortest (tries k : nat) (pow x : float) : option string :=
  match tries with
  | O => None
  | S tries' =>
      let r := rint (x * pow) in
      if PrimFloat.ltb (x * pow) two52 && PrimFloat.eqb (r / pow) x
      then Some (fixed r k)
      else shortest tries' (S k) (pow * 10)%float x
  end.

Definition number_to_string (x : float) : string :=
  if negb (PrimFloat.eqb x x) then "NaN"
  else if PrimFloat.eqb x 0 then "0"
  else
    let a := PrimFloat.abs x in
    let sign := if PrimFloat.ltb x 0 then "-" else "" in
    if PrimFloat.eqb a PrimFloat.infinity then sign +:+ "Infinity"
    else if PrimFloat.ltb a 0x1.0c6f7a0b5ed8dp-20 then "NaN"
    else
      match shortest 18 0 1%float a with
      | Some s => sign +:+ s
      | None => "NaN"
      end.

#[local] Instance runtime : Runtime := {
  JSON_parse := parse;
  StringToNumber := to_number;
  NumberToString := number_to_string;
}.

(** A JSON text is written with ['] for its double quotes. *)
Fixpoint quoted (text : string) : string :=
  match text with
  | String c text' =>
      String (if Ascii.eqb c "'"%char then dquote else c) (quoted text')
  | EmptyString => ""
  end.

End Mini.


(** ** Describing a run *)

(** How the child's run ends, read off its events: it exits with a code
    after writing [out] and [err], or it cannot be started, or neither
    ever happens. *)
Inductive Ending : Type :=
  | Exited (code : option Z) (out err : string)
  | NotStarted (message : string)
  | Running.

Fixpoint ending_from (out err : string) (events : list ProcEvent) : Ending :=
  match events with
  | [] => Running
  | StdoutData data :: rest => ending_from (out +:+ data) err rest
  | StderrData data :: rest => ending_from out (err +:+ data) rest
  | Close code :: _ => Exited code out err
  | ErrorEv message :: _ => NotStarted message
  end.

Definition ending (events : list ProcEvent) : Ending := ending_from "" "" events.

(** Output events, and the text a list of events writes to each stream. *)
Definition is_data (ev : ProcEvent) : bool :=
  match ev with
  | StdoutData _ | StderrData _ => true
  | _ => false
  end.

Fixpoint out_text (events : list ProcEvent) : string :=
  match events with
  | [] => ""
  | StdoutData data :: rest => data +:+ out_text rest
  | _ :: rest => out_text rest
  end.

Fixpoint err_text (events : list ProcEvent) : string :=
  match events with
  | [] => ""
  | StderrData data :: rest => data +:+ err_text rest
  | _ :: rest => err_text rest
  end.

(** A promise, as the [await] on it ends. *)
Definition as_outcome (o : option (completion value)) : outcome value :=
  match o with
  | Some (Val v) => Ret v
  | Some (Thrown m) => Throw m
  | None => Pending
  end.

(** The temporary file of a batch request that arrives in [w]. *)
Definition temp_csv (w : World) : string :=
  Path.join ["uploads"; "temp_" +:+ pretty (clock w) +:+ ".csv"].

(** The computation [c], run in [w], has spawned a process. *)
Definition invoked {A} (c : M A) (w : World) : Prop :=
  spawned (c w).2 ≠ spawned w.

(** The response of a handler, if it sends one. *)
Definition response (r : outcome Response * World) : option Response :=
  match r.1 with
  | Ret resp => Some resp
  | _ => None
  end.

Section Verdict.
Context `{Runtime}.

(** What the invocation of the predictor comes to, by how the run ends:
    the parsed output of a run that exits with code zero, an error that
    carries the captured standard error, the parser's message or the
    cause of the failed start otherwise. *)
Definition verdict (e : Ending) : outcome value :=
  match e with
  | Exited code out err =>
      if nonzero code then Throw ("Python script failed: " +:+ err)
      else
        match JSON_parse out with
        | Val result => Ret result
        | Thrown message => Throw ("Failed to parse Python output: " +:+ message)
        end
  | NotStarted message => Throw ("Failed to start Python: " +:+ message)
  | Running => Pending
  end.

(** The invocation of the predictor, in [w], is fulfilled with [result]. *)
Definition resolves (w : World) (result : value) : Prop :=
  verdict (ending (child w)) = Ret result.

(** It is rejected with an error of message [message]. *)
Definition rejects (w : World) (message : string) : Prop :=
  verdict (ending (child w)) = Throw message.

End Verdict.

(** ** A deployment, for the examples *)

Module Deployed.

Definition root : string := "/srv/app".

Definition disk : gmap string node :=
  list_to_map
    [ ("uploads", Dir);
      ("uploads/3f2a9c", File "DateTime,flare_probability");
      ("/srv/app/predict.py", File "");
      ("/srv/app/forecasts", Dir);
      ("/srv/app/forecasts/solar_flare_forecast.csv", File "DateTime,flare_probability");
      ("/srv/app/forecasts/notes.txt", File "") ].

(** The server at an instant, about to spawn a child that behaves as
    [events] say. *)
Definition world (env : option string) (events : list ProcEvent) : World :=
  mkWorld disk 1767225600000 env events [] [].

Definition forecast (datetime : string) (flare_probability : float) : value :=
  VObject [("datetime", VString datetime);
           ("flare_probability", VNum flare_probability)].

Definition prediction : value :=
  VObject [("success", VBool true);
           ("blackout_probability", VNum 0.5);
           ("risk_level", VString "MODERATE")].

Definition prediction_text : string :=
  Mini.quoted "{'success': true, 'blackout_probability': 0.5, 'risk_level': 'MODERATE'}".

Definition refusal : value :=
  VObject [("success", VBool false); ("error", VString "No valid rows")].

Definition refusal_text : string :=
  Mini.quoted "{'success': false, 'error': 'No valid rows'}".

(** The child prints a prediction and exits with code 0. *)
Definition succeeds : list ProcEvent :=
  [StdoutData prediction_text; Close (Some 0%Z)].

(** The child prints a refusal, in two chunks, and exits with code 0. *)
Definition refuses : list ProcEvent :=
  [StdoutData (String.substring 0 10 refusal_text);
   StdoutData (String.substring 10 100 refusal_text); Close (Some 0%Z)].

(** The child complains and exits with code 1. *)
Definition fails : list ProcEvent :=
  [StderrData "model load "; StderrData "failed"; Close (Some 1%Z)].

(** The interpreter is not found. *)
Definition absent : list ProcEvent :=
  [ErrorEv "spawn python ENOENT"; Close (Some (-2)%Z)].

(** The body of a batch request with one record. *)
Definition one_forecast (flare_probability : float) : value :=
  VObject [("forecasts",
            VArray [forecast "2026-02-01 12:00:00" flare_probability])].

End Deployed.

(** ** Describing a batch *)

Section Records.
Context `{Runtime}.

(** The record [{datetime, flare_probability}] of a forecast. *)
Definition record (row : string * float) : value :=
  VObject [("datetime", VString row.1); ("flare_probability", VNum row.2)].

(** The line of the CSV file that stands for it, and the lines of a list
    of them. *)
Definition csv_line (row : string * float) : string :=
  row.1 +:+ "," +:+ NumberToString row.2 +:+ Str.nl.

Definition csv_lines (rows : list (string * float)) : string :=
  foldr (λ row text, csv_line row +:+ text) "" rows.

(** A forecast one of whose two fields the loop finds missing. *)
Definition lacks_field (forecast : value) : Prop :=
  ∃ datetime flare_probability,
    JS.get forecast "datetime" = Val datetime
    ∧ JS.get forecast "flare_probability" = Val flare_probability
    ∧ JS.not datetime || JS.is_undefined flare_probability = true.

End Records.

(** The object [getModelInfo] falls back on. *)
Definition basic_info : value :=
  VObject [("version", VString "1.0");
           ("model_type", VString "LogisticRegression");
           ("features", VNum 7%float);
           ("note", VString "Model info extraction requires Python script update")].

(** The temporary script of a metadata request that arrives in [w]. *)
Definition temp_script (w : World) : string :=
  Path.join ["uploads"; "info_" +:+ pretty (clock w) +:+ ".py"].

(** ** Describing a path *)

(** A name that is one step down: not empty, without [/], and neither
    [.] nor [..]. *)
Definition plain (name : string) : bool :=
  Str.nonempty name && negb (Str.includes name "/")
  && negb (String.eqb name ".") && negb (String.eqb name "..").

(** The absolute path that goes down by [names]. *)
Definition absolute (names : list string) : string :=
  "/" +:+ Str.join "/" names.

(** ** Dates *)

Module Date.

(** [n] in decimal, with zeros in front up to [width] digits. *)
Definition padded (width : nat) (n : Z) : string :=
  let digits := pretty n in
  Mini.zeros (width - String.length digits) +:+ digits.

(** The civil date of the day [days] after 1 January 1970: year, month
    and day of the month in the proleptic Gregorian calendar. *)
Definition civil (days : Z) : Z * Z * Z :=
  let z := (days + 719468)%Z in
  let era := (z / 146097)%Z in
  let doe := (z - era * 146097)%Z in
  let yoe := ((doe - doe / 1460 + doe / 36524 - doe / 146096) / 365)%Z in
  let doy := (doe - (365 * yoe + yoe / 4 - yoe / 100))%Z in
  let mp := ((5 * doy + 2) / 153)%Z in
  let d := (doy - (153 * mp + 2) / 5 + 1)%Z in
  let m := (if (mp <? 10)%Z then mp + 3 else mp - 9)%Z in
  let y := (yoe + era * 400 + (if (m <=? 2)%Z then 1 else 0))%Z in
  (y, m, d).

(** [new Date(ms).toISOString()] for a time value in the range of [Date]. *)
Definition toISOString (ms : Z) : string :=
  let '(y, m, d) := civil (ms / 86400000) in
  let t := (ms mod 86400000)%Z in
  let year :=
    if ((0 <=? y) && (y <=? 9999))%Z then padded 4 y
    else if (y <? 0)%Z then "-" +:+ padded 6 (- y)
    else "+" +:+ padded 6 y in
  year +:+ "-" +:+ padded 2 m +:+ "-" +:+ padded 2 d
  +:+ "T" +:+ padded 2 (t / 3600000)
  +:+ ":" +:+ padded 2 (t / 60000 mod 60)
  +:+ ":" +:+ padded 2 (t / 1000 mod 60)
  +:+ "." +:+ padded 3 (t mod 1000) +:+ "Z".

End Date.

(** ** The rest of the server *)

Section Health.
Context `{Runtime}.
Variable dirname : string.

(** [{ status: 'unhealthy', error: message }] *)
Definition unhealthy (message : string) : value :=
  VObject [("status", VString "unhealthy"); ("error", VString message)].

(** [GET /health] *)
Definition health : M Response :=
  try_catch
    (Fs.access (MODEL_PATH dirname);;
     Fs.access (PYTHON_SCRIPT dirname);;
     now ← Date_now;
     respond 200 (VObject [("status", VString "healthy");
                           ("timestamp", VString (Date.toISOString now));
                           ("model", VString "available");
                           ("python", VString "available")]))
    (λ message, respond 500 (unhealthy message)).

End Health.

(** *** Making directories *)

Module Mkdir.

Definition eexist (path : string) : string :=
  "EEXIST: file already exists, mkdir '" +:+ path +:+ "'".

(** The directories above [path], outermost first; the root and the
    working directory are there already. *)
Fixpoint ancestors (fuel : nat) (path : string) : list string :=
  match fuel with
  | O => []
  | S fuel' =>
      let parent := Path.dirname path in
      if String.eqb parent "." || String.eqb parent "/" || String.eqb parent path
      then []
      else ancestors fuel' parent ++ [parent]
  end.

(** The directories of [dirs] are made in turn, each unless it is there;
    a file in the place of one of them stops it: [path], which the call
    names, is reported with [ENOTDIR] for a file above it and with
    [EEXIST] for a file in its own place. *)
Fixpoint make (path : string) (dirs : list string) : M unit :=
  match dirs with
  | [] => mret ()
  | dir :: rest => λ w,
      match fs w !! dir with
      | Some Dir => make path rest w
      | Some (File _) =>
          (Throw (if String.eqb dir path then eexist path
                  else Fs.enotdir "mkdir" path), w)
      | None => make path rest (set_fs <[dir := Dir]> w)
      end
  end.

(** [fs.mkdir(path, { recursive: true })] *)
Definition recursive (path : string) : M unit :=
  make path (ancestors (String.length path) path ++ [path]).

End Mkdir.

(** [console.log(line)]: the line is kept with those of [console.error]. *)
Definition console_log (line : string) : M unit := λ w,
  (Ret (), log_console line w).

Section Startup.
Context `{Runtime}.
Variable dirname : string.

(** Ensure directories exist. *)
Definition ensureDirectories : M unit :=
  try_catch
    (Mkdir.recursive (FORECASTS_DIR dirname);;
     Mkdir.recursive "uploads";;
     console_log "âœ“ Directories initialized")
    (λ err, console_error ("Error creating directories: " +:+ err)).

End Startup.

(** * Properties *)

(** ** What the string tests mean *)

Module StrFacts.

Lemma startsWith_spec (s p : string) :
  Str.startsWith s p = true ↔ ∃ r, s = p +:+ r.
Proof.
  revert s. induction p as [|a p IH]; intros s.
  - destruct s; (split; [intros _; by eexists | auto]).
  - destruct s as [|b s]; simpl.
    + split; [discriminate | intros [r Hr]; discriminate].
    + rewrite andb_true_iff, Ascii.eqb_eq, IH. split.
      * intros [-> [r ->]]. by exists r.
      * intros [r Hr]. injection Hr as -> ->. split; [done | by exists r].
Qed.

Lemma includes_spec (s n : string) :
  Str.includes s n = true ↔ ∃ a b, s = a +:+ n +:+ b.
Proof.
  induction s as [|c s IH]; cbn [Str.includes].
  - rewrite orb_false_r, startsWith_spec. split.
    + intros [r Hr]. by exists "", r.
    + intros [a [b Hab]]. destruct a; [by exists b | discriminate].
  - rewrite orb_true_iff, startsWith_spec, IH. split.
    + intros [[r Hr] | [a [b ->]]].
      * by exists "", r.
      * by exists (String c a), b.
    + intros [a [b Hab]]. destruct a as [|c' a]; simpl in Hab.
      * left. by exists b.
      * right. injection Hab as -> ->. by exists a, b.
Qed.

Lemma endsWith_spec (s suf : string) :
  Str.endsWith s suf = true ↔ ∃ p, s = p +:+ suf.
Proof.
  induction s as [|c s IH]; cbn [Str.endsWith].
  - rewrite orb_false_r, String.eqb_eq. split.
    + intros <-. by exists "".
    + intros [p Hp]. destruct p; [done | discriminate].
  - rewrite orb_true_iff, String.eqb_eq, IH. split.
    + intros [<- | [p ->]]; [by exists "" | by exists (String c p)].
    + intros [p Hp]. destruct p as [|c' p]; simpl in Hp.
      * by left.
      * right. injection Hp as -> ->. by exists p.
Qed.

End StrFacts.

(** ** The file system *)

Module FsFacts.

Lemma entry_name_below (dir name : string) :
  Str.nonempty name = true → Str.includes name "/" = false →
  Fs.entry_name dir (dir +:+ "/" +:+ name) = Some name.
Proof.
  intros Hne Hin. induction dir as [|a dir IH].
  - change ("" +:+ "/" +:+ name) with (String "/" name).
    cbn [Fs.entry_name]. by rewrite Hne, Hin.
  - change (String a dir +:+ "/" +:+ name) with (String a (dir +:+ "/" +:+ name)).
    cbn [Fs.entry_name]. by rewrite Ascii.eqb_refl.
Qed.

Lemma entry_name_inv (dir path name : string) :
  Fs.entry_name dir path = Some name →
  path = dir +:+ "/" +:+ name
  ∧ Str.nonempty name = true ∧ Str.includes name "/" = false.
Proof.
  revert path. induction dir as [|a dir IH]; intros [|c path];
    cbn [Fs.entry_name]; try done.
  - destruct (Ascii.eqb c "/") eqn:Hc; [|done].
    apply Ascii.eqb_eq in Hc as ->.
    destruct (Str.nonempty path) eqn:Hne, (Str.includes path "/") eqn:Hin;
      cbn [andb negb]; try done. by intros [= <-].
  - destruct (Ascii.eqb a c) eqn:Hac; [|done].
    apply Ascii.eqb_eq in Hac as ->. intros (-> & ? & ?)%IH. done.
Qed.

Lemma entry_name_spec (dir path name : string) :
  Fs.entry_name dir path = Some name
  ↔ path = dir +:+ "/" +:+ name
    ∧ Str.nonempty name = true ∧ Str.includes name "/" = false.
Proof.
  split; [apply entry_name_inv |]. intros (-> & ? & ?). by apply entry_name_below.
Qed.

Lemma entries_spec (disk : gmap string node) (dir name : string) :
  name ∈ Fs.entries disk dir
  ↔ is_Some (disk !! (dir +:+ "/" +:+ name))
    ∧ Str.nonempty name = true ∧ Str.includes name "/" = false.
Proof.
  unfold Fs.entries. rewrite list_elem_of_omap. split.
  - intros (path & Hpath & Hname). apply entry_name_spec in Hname as (-> & ? & ?).
    apply list_elem_of_fmap in Hpath as ([p n] & Hp & Hin). simpl in Hp. subst p.
    apply elem_of_map_to_list in Hin. by eauto.
  - intros ([n Hn] & ? & ?). exists (dir +:+ "/" +:+ name). split.
    + apply list_elem_of_fmap. exists (dir +:+ "/" +:+ name, n). split; [done |].
      by apply elem_of_map_to_list.
    + by apply entry_name_spec.
Qed.

End FsFacts.

(** ** The events of a run *)

Module RunFacts.

Lemma append_assoc (a b c : string) : (a +:+ b) +:+ c = a +:+ b +:+ c.
Proof.
  induction a as [|x a IH]; [done |].
  change (String x ((a +:+ b) +:+ c) = String x (a +:+ b +:+ c)). by rewrite IH.
Qed.

Lemma append_nil_r (a : string) : a +:+ "" = a.
Proof.
  induction a as [|x a IH]; [done |].
  change (String x (a +:+ "") = String x a). by rewrite IH.
Qed.

Lemma ending_from_data (out err : string) (data rest : list ProcEvent) :
  forallb is_data data = true →
  ending_from out err (data ++ rest)
  = ending_from (out +:+ out_text data) (err +:+ err_text data) rest.
Proof.
  revert out err. induction data as [|[] data IH]; intros out err Hdata;
    try discriminate; cbn.
  - by rewrite !append_nil_r.
  - rewrite IH by done. by rewrite append_assoc.
  - rewrite IH by done. by rewrite append_assoc.
Qed.

(** The events before the first [close] or [error]. *)
Lemma ending_from_split (out err : string) (events : list ProcEvent) :
  ending_from out err events ≠ Running →
  ∃ data ev rest,
    events = data ++ ev :: rest ∧ forallb is_data data = true ∧ is_data ev = false.
Proof.
  revert out err. induction events as [|ev events IH]; intros out err; [done |].
  destruct ev as [chunk|chunk|code|message]; cbn.
  1,2: intros (data & ev & rest & -> & Hdata & Hev)%IH;
       by eexists (_ :: data), ev, rest.
  all: intros _; by eexists [], _, events.
Qed.


(** It ends as [NotStarted] exactly when that event is an [error]. *)
Lemma ending_not_started_iff (events : list ProcEvent) (message : string) :
  ending events = NotStarted message
  ↔ ∃ data rest,
      events = data ++ ErrorEv message :: rest ∧ forallb is_data data = true.
Proof.
  unfold ending. split.
  - intros Hend.
    destruct (ending_from_split "" "" events) as (data & ev & rest & -> & Hdata & Hev);
      [by rewrite Hend |].
    rewrite ending_from_data in Hend by done.
    destruct ev; try discriminate; cbn in Hend. injection Hend as ->.
    by exists data, rest.
  - intros (data & rest & -> & Hdata). by rewrite ending_from_data.
Qed.

End RunFacts.

(** ** Paths *)

Module PathFacts.

Lemma append_cons (c : ascii) (a b : string) :
  String c a +:+ b = String c (a +:+ b).
Proof. done. Qed.

Lemma append_nil_l (s : string) : "" +:+ s = s.
Proof. done. Qed.

Lemma startsWith_nil_false (c : ascii) (p : string) :
  Str.startsWith "" (String c p) = false.
Proof. done. Qed.

(** A string without [/] is one segment. *)
Lemma split_slash_plain (cur s : string) :
  Str.includes s "/" = false → Str.split_slash cur s = [cur +:+ s].
Proof.
  revert cur. induction s as [|c s IH]; intros cur Hs.
  - cbn. by rewrite RunFacts.append_nil_r.
  - cbn [Str.includes Str.startsWith] in Hs. cbn [Str.split_slash].
    apply orb_false_iff in Hs as [Hc Hs].
    destruct (Ascii.eqb c "/") eqn:Hc'.
    + apply Ascii.eqb_eq in Hc' as ->. by destruct s.
    + rewrite IH by done. by rewrite RunFacts.append_assoc.
Qed.

Lemma split_slash_cons (cur s t : string) :
  Str.includes s "/" = false →
  Str.split_slash cur (s +:+ "/" +:+ t) = (cur +:+ s) :: Str.split_slash "" t.
Proof.
  revert cur. induction s as [|c s IH]; intros cur Hs.
  - rewrite append_nil_l, (append_cons "/" "" t), append_nil_l.
    cbn [Str.split_slash Ascii.eqb Bool.eqb].
    by rewrite RunFacts.append_nil_r.
  - cbn [Str.includes Str.startsWith] in Hs.
    apply orb_false_iff in Hs as [Hc Hs].
    rewrite append_cons. cbn [Str.split_slash].
    destruct (Ascii.eqb c "/") eqn:Hc'.
    + apply Ascii.eqb_eq in Hc' as ->. by destruct s.
    + rewrite IH by done. by rewrite RunFacts.append_assoc.
Qed.

Lemma plain_no_slash (name : string) : plain name = true → Str.includes name "/" = false.
Proof. unfold plain. rewrite !andb_true_iff, negb_true_iff. tauto. Qed.

Lemma split_slash_join (names : list string) (last : string) :
  Forall (λ name, plain name = true) names →
  Str.includes last "/" = false →
  Str.split_slash "" (Str.join "/" names +:+ "/" +:+ last)
  = match names with [] => [""] | _ => names end ++ [last].
Proof.
  intros Hnames Hlast. induction Hnames as [|name names Hname Hnames IH].
  - cbn [Str.join]. rewrite append_nil_l, (append_cons "/" "" last), append_nil_l.
    cbn [Str.split_slash Ascii.eqb Bool.eqb]. cbn [app].
    by rewrite split_slash_plain.
  - destruct names as [|name' names].
    + cbn [Str.join]. rewrite split_slash_cons by by apply plain_no_slash.
      by rewrite split_slash_plain.
    + change (Str.join "/" (name :: name' :: names))
        with (name +:+ "/" +:+ Str.join "/" (name' :: names)).
      rewrite !RunFacts.append_assoc.
      rewrite split_slash_cons by by apply plain_no_slash.
      by rewrite IH.
Qed.

Lemma push_plain (stack : list string) (name : string) :
  plain name = true → Path.push true stack name = name :: stack.
Proof.
  unfold plain, Path.push. rewrite !andb_true_iff, !negb_true_iff.
  intros [[[Hne _] Hdot] Hup]. rewrite Hdot, Hup.
  by destruct name.
Qed.

Lemma fold_push_plain (names stack : list string) :
  Forall (λ name, plain name = true) names →
  fold_left (Path.push true) names stack = rev names ++ stack.
Proof.
  intros Hnames. revert stack.
  induction Hnames as [|name names Hname _ IH]; intros stack; [done |].
  cbn. rewrite push_plain, IH by done. by rewrite <- app_assoc.
Qed.

Lemma join_snoc (names : list string) (last : string) :
  names ≠ [] → Str.join "/" (names ++ [last]) = Str.join "/" names +:+ "/" +:+ last.
Proof.
  induction names as [|name names IH]; [done |]. intros _.
  destruct names as [|name' names]; [done |].
  change (Str.join "/" ((name :: name' :: names) ++ [last]))
    with (name +:+ "/" +:+ Str.join "/" ((name' :: names) ++ [last])).
  rewrite IH by done.
  change (Str.join "/" (name :: name' :: names))
    with (name +:+ "/" +:+ Str.join "/" (name' :: names)).
  by rewrite !RunFacts.append_assoc.
Qed.

(** A string that ends with [/] contains it. *)
Lemma endsWith_includes (s suf : string) :
  Str.endsWith s suf = true → Str.includes s suf = true.
Proof.
  rewrite StrFacts.endsWith_spec, StrFacts.includes_spec.
  intros [p ->]. exists p, "". by rewrite RunFacts.append_nil_r.
Qed.

Lemma append_nonempty (a s : string) :
  Str.nonempty s = true → String.eqb (a +:+ s) "" = false.
Proof. destruct a, s; done. Qed.

Lemma endsWith_slash_append (a s : string) :
  Str.nonempty s = true → Str.endsWith (a +:+ s) "/" = Str.endsWith s "/".
Proof.
  intros Hs. induction a as [|c a IH]; [done |].
  rewrite append_cons. cbn [Str.endsWith String.eqb].
  rewrite IH, append_nonempty by done. by destruct (Ascii.eqb c "/").
Qed.

Lemma startsWith_slash (t : string) : Str.startsWith (String "/" t) "/" = true.
Proof. by destruct t. Qed.

Lemma normalize_down (names : list string) (name : string) :
  Forall (λ name, plain name = true) names →
  Str.nonempty name = true →
  Str.includes name ".." = false → Str.includes name "/" = false →
  Path.normalize (String "/" (Str.join "/" names +:+ "/" +:+ name))
  = absolute (names ++ if String.eqb name "." then [] else [name]).
Proof.
  intros Hnames Hne Hup Hslash.
  assert (Hends : Str.endsWith (String "/" (Str.join "/" names +:+ "/" +:+ name)) "/"
                  = false).
  { rewrite <- append_cons, <- RunFacts.append_assoc.
    rewrite endsWith_slash_append by done.
    destruct (Str.endsWith name "/") eqn:Hends; [|done].
    apply endsWith_includes in Hends. congruence. }
  assert (Hsplit : Str.split_slash "" (String "/" (Str.join "/" names +:+ "/" +:+ name))
                   = "" :: match names with [] => [""] | _ => names end ++ [name]).
  { cbn [Str.split_slash Ascii.eqb Bool.eqb]. by rewrite split_slash_join. }
  assert (Hfold : fold_left (Path.push true)
                    (match names with [] => [""] | _ => names end) []
                  = rev names).
  { destruct names as [|name' names]; [done |].
    rewrite fold_push_plain by done. by rewrite app_nil_r. }
  assert (Hpush : Path.push true (rev names) name
                  = rev (names ++ if String.eqb name "." then [] else [name])).
  { destruct (String.eqb name ".") eqn:Hdot.
    - apply String.eqb_eq in Hdot as ->. by rewrite app_nil_r.
    - rewrite push_plain, rev_app_distr; [done |].
      unfold plain. rewrite Hne, Hslash, Hdot. cbn.
      destruct (String.eqb name "..") eqn:Hdots; [|done].
      apply String.eqb_eq in Hdots as ->. done. }
  unfold Path.normalize.
  rewrite startsWith_slash, Hends, Hsplit.
  cbn [String.eqb fold_left negb].
  change (Path.push true [] "") with (@nil string).
  rewrite fold_left_app, Hfold. cbn [fold_left].
  rewrite Hpush, rev_involutive, !andb_false_r. done.
Qed.

(** Joining a plain name, or [.], to an absolute path of plain names goes
    one step down, or stays. *)
Lemma join_plain (names : list string) (name : string) :
  Forall (λ name, plain name = true) names →
  Str.nonempty name = true →
  Str.includes name ".." = false → Str.includes name "/" = false →
  Path.join [absolute names; name]
  = absolute (names ++ if String.eqb name "." then [] else [name]).
Proof.
  intros Hnames Hne Hup Hslash. rewrite <- normalize_down by done.
  unfold Path.join, absolute. rewrite append_cons, append_nil_l.
  cbn [List.filter Str.nonempty]. rewrite Hne.
  cbn [Str.join]. by rewrite append_cons.
Qed.

End PathFacts.

(** ** The invocation of the predictor *)

Section ServerFacts.
Context `{Runtime} (dirname : string).

Arguments Path.join : simpl never.
Arguments pretty : simpl never.
Arguments JS.get : simpl never.
Arguments JS.lt : simpl never.
Arguments JS.gt : simpl never.
Arguments JS.toString : simpl never.
Arguments JS.not : simpl never.
Arguments JS.is_undefined : simpl never.
Arguments JS.isArray : simpl never.
Arguments JS.elements : simpl never.
Arguments failure : simpl never.
Arguments verdict : simpl never.
Arguments ending : simpl never.
Arguments Str.includes : simpl never.
Arguments Str.endsWith : simpl never.
Arguments PYTHON_SCRIPT : simpl never.
Arguments FORECASTS_DIR : simpl never.
Arguments pythonPath : simpl never.
Arguments pythonCode : simpl never.
Arguments Fs.entries : simpl never.

(** A settled promise stays as it is. *)
Lemma settled_stays (events : list ProcEvent) (st : Capture) (c : completion value) :
  settled st = Some c → settled (fold_left on_event events st) = Some c.
Proof.
  revert st. induction events as [|ev events IH]; intros st Hst; [done |].
  simpl. apply IH. destruct ev; simpl; try done.
  - destruct (nonzero code); [|destruct (JSON_parse _)]; unfold settle; by rewrite Hst.
  - unfold settle. by rewrite Hst.
Qed.

(** The listeners, folded over the events, settle the promise as the
    first [close] or [error] among them says. *)
Lemma settled_fold (events : list ProcEvent) (st : Capture) :
  settled st = None →
  as_outcome (settled (fold_left on_event events st))
  = verdict (ending_from (stdout st) (stderr st) events).
Proof.
  revert st. induction events as [|ev events IH]; intros st Hst.
  - simpl. by rewrite Hst.
  - destruct ev; simpl.
    + by rewrite IH.
    + by rewrite IH.
    + unfold verdict.
      destruct (nonzero code); [|destruct (JSON_parse _)];
        by erewrite settled_stays by (unfold settle; by rewrite Hst).
    + by erewrite settled_stays by (unfold settle; by rewrite Hst).
Qed.

Lemma executePython_run (args : list value) (w : World) :
  executePython dirname args w
  = (verdict (ending (child w)),
     log_spawn (pythonPath w) (VString (PYTHON_SCRIPT dirname) :: args) w).
Proof.
  unfold executePython, ending.
  change (ending_from "" "" (child w)) with
    (ending_from (stdout (mkCapture "" "" None)) (stderr (mkCapture "" "" None))
       (child w)).
  rewrite <- settled_fold by done.
  unfold capture. by destruct (settled _) as [[]|].
Qed.

Lemma nonzero_true (code : option Z) : code ≠ Some 0%Z → nonzero code = true.
Proof. by destruct code as [[]|]. Qed.

(** C5. [executePython] resolves with the parsed JSON if and only if the
    process exits with code zero and what it wrote to its standard output
    parses; when it exits with another code it rejects with an error
    carrying the captured standard error, when the output does not parse
    with one carrying the parser's message, and when the process cannot
    be started with one carrying the cause. *)
Theorem executePython_settles (args : list value) (w : World) :
  (∀ result,
     (executePython dirname args w).1 = Ret result
     ↔ ∃ out err, ending (child w) = Exited (Some 0%Z) out err
                  ∧ JSON_parse out = Val result)
  ∧ (∀ code out err,
       ending (child w) = Exited code out err → code ≠ Some 0%Z →
       (executePython dirname args w).1 = Throw ("Python script failed: " +:+ err))
  ∧ (∀ out err message,
       ending (child w) = Exited (Some 0%Z) out err →
       JSON_parse out = Thrown message →
       (executePython dirname args w).1
       = Throw ("Failed to parse Python output: " +:+ message))
  ∧ (∀ message,
       ending (child w) = NotStarted message →
       (executePython dirname args w).1
       = Throw ("Failed to start Python: " +:+ message)).
Proof.
  rewrite executePython_run. cbn [fst]. unfold verdict. repeat split.
  - destruct (ending (child w)) as [code out err| |]; try done.
    destruct (nonzero code) eqn:Hcode; [done |].
    destruct code as [[]|]; try done.
    destruct (JSON_parse out) eqn:Hparse; [|done].
    intros [= ->]. by exists out, err.
  - intros (out & err & -> & Hparse). cbn. by rewrite Hparse.
  - intros code out err -> Hcode. by rewrite nonzero_true.
  - intros out err message -> Hparse. cbn. by rewrite Hparse.
  - by intros message ->.
Qed.

(** While the process neither exits nor fails to start, the invocation
    stays pending. *)
Lemma executePython_pending (args : list value) (w : World) :
  ending (child w) = Running → (executePython dirname args w).1 = Pending.
Proof. rewrite executePython_run. by intros ->. Qed.

(** Every invocation through [executePython] starts the interpreter that
    the environment selects, on the predictor's script. *)
Lemma executePython_command (args : list value) (w : World) :
  spawned (executePython dirname args w).2
  = (pythonPath w, VString (PYTHON_SCRIPT dirname) :: args) :: spawned w.
Proof. by rewrite executePython_run. Qed.

(** ** The handlers *)

Ltac run :=
  unfold predict, predict_single, predict_batch, predict_upload, predict_csv,
    forecasts, model_info, spawn_info,
    relay, on_error, respond, try_catch, lift, throw, mbind, M_bind, mret, M_ret,
    invoked, response, console_error, Date_now,
    Fs.access, Fs.writeFile, Fs.unlink, Fs.readdir, resolves, rejects in *;
  cbn.

(** One step of a run: the invocation is replaced by its verdict, or the
    innermost test is decided both ways. *)
Ltac step :=
  match goal with
  | H : verdict ?e = _ |- context [verdict ?e] => rewrite H
  | |- context [<[?k:=_]> _ !! ?k] => rewrite lookup_insert_eq
  | |- context [executePython _ ?a ?w] => rewrite (executePython_run a w)
  | |- context [match ?x with _ => _ end] =>
      lazymatch x with
      | context [match _ with _ => _ end] => fail
      | _ => destruct x eqn:?
      end
  end; cbn.

Ltac finish :=
  intros;
  repeat match goal with
         | H1 : ?x = _, H2 : ?x = _ |- _ => rewrite H1 in H2
         end;
  unfold JS.get, JS.not, JS.is_undefined in *; simplify_eq; try done.

Lemma cons_neq {A} (x : A) (l : list A) : x :: l ≠ l.
Proof. intros Heq. apply (f_equal length) in Heq. simpl in Heq. lia. Qed.

(** C4. When the invocation of the predictor resolves with an object, a
    prediction operation relays that object: with status 200 when its
    [success] is [true], with status 500 when it is [false]. *)
Theorem relay_by_success (op : Prediction) (w : World)
    (props : list (string * value)) :
  invoked (predict dirname op) w →
  resolves w (VObject props) →
  (JS.own "success" props = VBool true →
   response (predict dirname op w) = Some (mkResponse 200 (VObject props)))
  ∧ (JS.own "success" props = VBool false →
     response (predict dirname op w) = Some (mkResponse 500 (VObject props))).
Proof.
  intros Hinv Hres. revert Hinv.
  destruct op; run; repeat step; finish.
  all: split; intros Hs; rewrite Hs in *; done.
Qed.

(** A prediction operation starts nothing but the predictor, with the
    interpreter that the environment selects. *)
Lemma predict_command (op : Prediction) (w : World) :
  invoked (predict dirname op) w →
  ∃ args, spawned (predict dirname op w).2
          = (pythonPath w, VString (PYTHON_SCRIPT dirname) :: args) :: spawned w.
Proof.
  destruct op; run; repeat step; finish; by eexists.
Qed.

Lemma info_child_spawned (script : string) (events : list ProcEvent)
    (out err : string) (w : World) :
  spawned (info_child script events out err w).2 = spawned w.
Proof.
  revert out err. induction events as [|ev events IH]; intros out err; [done |].
  destruct ev; cbn [info_child]; [apply IH | apply IH | | done].
  run. by repeat step.
Qed.

(** The metadata operation starts [python3], whatever the environment
    says. *)
Lemma model_info_command (w : World) :
  invoked (model_info dirname) w →
  ∃ tempScript, spawned (model_info dirname w).2
                = ("python3", [VString tempScript]) :: spawned w.
Proof.
  run. repeat step; finish.
  all: match goal with
       | H : info_child _ _ _ _ _ = _ |- _ =>
           apply (f_equal (λ r, spawned r.2)) in H;
           rewrite info_child_spawned in H; cbn in H; rewrite <- H; by eexists
       end.
Qed.

(** When the invocation of the predictor is rejected, a prediction
    operation answers 500 with the message of the error. *)
Lemma predict_rejection (op : Prediction) (w : World) (message : string) :
  invoked (predict dirname op) w →
  rejects w message →
  response (predict dirname op w) = Some (mkResponse 500 (failure message)).
Proof.
  intros Hinv Hrej. revert Hinv.
  destruct op; run; repeat step; finish.
Qed.

Lemma exit_failure_rejects (w : World) (code : option Z) (out err : string) :
  ending (child w) = Exited code out err → code ≠ Some 0%Z →
  rejects w ("Python script failed: " +:+ err).
Proof. unfold rejects, verdict. intros -> Hcode. by rewrite nonzero_true. Qed.

(** C3, as the code has it. When the process exits with a nonzero code
    having written [model load failed] to its standard error, the
    single-prediction operation answers 500 with
    [{success: false, error: "Python script failed: model load failed"}]:
    the captured text follows the fixed prefix [Python script failed: ]. *)
Theorem single_failure_message (req_body : value) (w : World)
    (code : option Z) (out : string) :
  invoked (predict_single dirname req_body) w →
  ending (child w) = Exited code out "model load failed" →
  code ≠ Some 0%Z →
  response (predict_single dirname req_body w)
  = Some (mkResponse 500 (failure "Python script failed: model load failed")).
Proof.
  intros Hinv Hend Hcode.
  apply (predict_rejection (Single req_body)); [done |].
  by apply (exit_failure_rejects w code out).
Qed.

(** C6. A file name that contains [..] or [/] is refused with 400,
    whatever the disk holds; any other name with no file under the
    forecasts directory is answered 404. *)
Theorem predict_csv_guard (filename : string) (w : World) :
  (Str.includes filename ".." = true ∨ Str.includes filename "/" = true →
   predict_csv dirname filename w
   = (Ret (mkResponse 400 (failure "Invalid filename")), w))
  ∧ (Str.includes filename ".." = false →
     Str.includes filename "/" = false →
     fs w !! Path.join [FORECASTS_DIR dirname; filename] = None →
     predict_csv dirname filename w
     = (Ret (mkResponse 404 (failure ("File not found: " +:+ filename))), w)).
Proof.
  split.
  - intros Hbad. run.
    replace (Str.includes filename ".." || Str.includes filename "/") with true;
      [done |].
    symmetry. apply orb_true_iff. done.
  - intros Hup Hslash Hnone. run. rewrite Hup, Hslash. cbn. by rewrite Hnone.
Qed.

(** C8. A single-prediction request whose [flare_probability] is a number
    below 0 or above 1 is answered 400 with
    [{success: false, error}], and the message names the field. *)
Theorem single_out_of_range (req_body : value) (w : World) (x : float) :
  JS.get req_body "flare_probability" = Val (VNum x) →
  PrimFloat.ltb x 0 = true ∨ PrimFloat.ltb 1 x = true →
  ∃ message,
    predict_single dirname req_body w
    = (Ret (mkResponse 400 (failure message)), w)
    ∧ Str.includes message "flare_probability" = true.
Proof.
  intros Hfp Hout. unfold JS.get in Hfp.
  destruct req_body as [| | | | | |props]; try discriminate.
  injection Hfp as Hfp. run. unfold JS.get. cbn. rewrite Hfp.
  destruct (JS.not _); cbn; [by eexists |].
  unfold JS.lt, JS.gt. cbn.
  destruct Hout as [-> | Hout]; cbn; [by eexists |].
  destruct (PrimFloat.ltb x 0); cbn; [by eexists |].
  rewrite Hout. cbn. by eexists.
Qed.

(** C10. The two required fields are tested differently: with
    [flare_probability] equal to 0 (and a [datetime] that holds) the
    request passes on to the predictor and is not answered 400, while
    with [datetime] equal to the empty string it is answered 400 as
    missing a field. *)
Theorem presence_tests (req_body : value) (w : World) :
  (∀ datetime,
     JS.get req_body "datetime" = Val datetime → JS.truthy datetime = true →
     JS.get req_body "flare_probability" = Val (VNum 0) →
     spawned (predict_single dirname req_body w).2
     = (pythonPath w, [VString (PYTHON_SCRIPT dirname); datetime;
                       VString (NumberToString 0)]) :: spawned w
     ∧ ∀ resp, response (predict_single dirname req_body w) = Some resp →
               status resp ≠ 400)
  ∧ (JS.get req_body "datetime" = Val (VString "") →
     predict_single dirname req_body w
     = (Ret (mkResponse 400
          (failure "Missing required fields: datetime, flare_probability")), w)).
Proof.
  split.
  - intros datetime Hdt Htruthy Hfp. run. rewrite Hdt, Hfp. cbn.
    unfold JS.not, JS.is_undefined, JS.lt, JS.gt, JS.toString. rewrite Htruthy.
    cbn. rewrite executePython_run. cbn.
    split; [by repeat step |].
    repeat step; by intros resp [= <-].
  - intros Hdt. run. rewrite Hdt. by destruct req_body.
Qed.

(** C9. The listing answers [{success: true, count, files}], [files]
    being the entries of the forecasts directory that end with [.csv],
    in the order the directory gives them, and [count] their number; on
    an empty directory it answers [{success: true, count: 0, files: []}]. *)
Theorem forecasts_lists_csv (w : World) :
  fs w !! FORECASTS_DIR dirname = Some Dir →
  ∃ files,
    forecasts dirname w
    = (Ret (mkResponse 200
         (VObject [("success", VBool true);
                   ("count", VNum (JS.of_nat (length files)));
                   ("files", VArray (VString <$> files))])), w)
    ∧ files = List.filter (λ f, Str.endsWith f ".csv")
                (Fs.entries (fs w) (FORECASTS_DIR dirname))
    ∧ (∀ name, In name files
               ↔ In name (Fs.entries (fs w) (FORECASTS_DIR dirname))
                 ∧ ∃ stem, name = stem +:+ ".csv")
    ∧ (Fs.entries (fs w) (FORECASTS_DIR dirname) = [] →
       forecasts dirname w
       = (Ret (mkResponse 200
            (VObject [("success", VBool true); ("count", VNum 0);
                      ("files", VArray [])])), w)).
Proof.
  intros Hdir. eexists. split; [|split; [reflexivity |split]].
  - run. by rewrite Hdir.
  - intros name. rewrite filter_In, StrFacts.endsWith_spec. done.
  - intros Hempty. run. by rewrite Hdir, Hempty.
Qed.


(** ** Temporary files *)

(** A batch request whose invocation resolves leaves no temporary file. *)
Lemma batch_removes_temp_file (req_body : value) (w : World) (result : value) :
  invoked (predict_batch dirname req_body) w →
  resolves w result →
  fs (predict_batch dirname req_body w).2 !! temp_csv w = None.
Proof.
  intros Hinv Hres. revert Hinv. unfold temp_csv.
  run; repeat step; finish.
  all: by rewrite lookup_delete_eq.
Qed.

(** One whose invocation is rejected answers 500 and leaves the file it
    wrote: the [catch] is entered from the [await], past the [unlink]. *)
Lemma batch_leaves_temp_file (req_body : value) (w : World) (message : string) :
  invoked (predict_batch dirname req_body) w →
  rejects w message →
  response (predict_batch dirname req_body w)
  = Some (mkResponse 500 (failure message))
  ∧ ∃ csvContent,
      fs (predict_batch dirname req_body w).2 !! temp_csv w
      = Some (File csvContent).
Proof.
  intros Hinv Hrej. revert Hinv. unfold temp_csv.
  run; repeat step; finish.
  all: split; [done |]; by eexists.
Qed.

(** An upload request whose invocation resolves leaves no uploaded file. *)
Lemma upload_removes_file (path content : string) (w : World) (result : value) :
  fs w !! path = Some (File content) →
  resolves w result →
  fs (predict_upload dirname (Some path) w).2 !! path = None.
Proof.
  intros Hfile Hres. run. repeat step; finish.
  all: by rewrite lookup_delete_eq.
Qed.

Lemma upload_leaves_file (path : string) (w : World) (message : string) :
  rejects w message →
  response (predict_upload dirname (Some path) w)
  = Some (mkResponse 500 (failure message))
  ∧ fs (predict_upload dirname (Some path) w).2 = fs w.
Proof.
  intros Hrej. run. by repeat step.
Qed.

(** A batch request that is answered 400 has written no file and started
    no process. *)
Lemma batch_refusal_touches_nothing (req_body : value) (w : World) (resp : Response) :
  response (predict_batch dirname req_body w) = Some resp →
  status resp = 400 →
  (predict_batch dirname req_body w).2 = w.
Proof.
  run; repeat step; finish.
Qed.

(** ** What a batch is checked for *)

(** The loop over the forecasts tests the two fields for presence only:
    records with a non-empty [datetime] pass it with any number. *)
Lemma csv_rows_any_probability (rows : list (string * float)) (csvContent : string) :
  Forall (λ row, Str.nonempty row.1 = true) rows →
  ∃ csv, csv_rows ((λ row, Deployed.forecast row.1 row.2) <$> rows) csvContent
         = Val (inr csv).
Proof.
  intros Hrows. revert csvContent.
  induction Hrows as [|[datetime x] rows Hrow _ IH]; intros csvContent.
  - by eexists.
  - destruct datetime as [|c datetime]; [done |].
    cbn [fmap list_fmap csv_rows Deployed.forecast fst snd].
    unfold JS.get, JS.not, JS.is_undefined. cbn. apply IH.
Qed.

Lemma batch_accepts_any_probability (rows : list (string * float)) (w : World) :
  rows ≠ [] →
  Forall (λ row, Str.nonempty row.1 = true) rows →
  fs w !! Path.dirname (temp_csv w) = Some Dir →
  fs w !! temp_csv w = None →
  invoked (predict_batch dirname
             (VObject [("forecasts",
                VArray ((λ row, Deployed.forecast row.1 row.2) <$> rows))])) w.
Proof.
  intros Hne Hrows Hdir Hfree.
  destruct rows as [|row rows]; [done |].
  destruct (csv_rows_any_probability (row :: rows)
              ("DateTime,flare_probability" +:+ Str.nl) Hrows) as [csv Hcsv].
  set (records := _ <$> (row :: rows)) in *.
  assert (Hlen : (length records =? 0) = false) by done.
  clearbody records.
  unfold temp_csv in *. run. unfold JS.get, JS.not, JS.isArray, JS.elements. cbn.
  rewrite Hlen, Hcsv. cbn. rewrite Hfree, Hdir. cbn.
  repeat step; apply cons_neq.
Qed.

(** ** Every outcome of a prediction *)

Lemma verdict_pending (e : Ending) : verdict e = Pending → e = Running.
Proof.
  unfold verdict. destruct e as [code out err| |]; try done.
  by destruct (nonzero code); [|destruct (JSON_parse out)].
Qed.

Lemma verdict_no_crash (e : Ending) (message : string) : verdict e ≠ Crash message.
Proof.
  unfold verdict. destruct e as [code out err| |]; try done.
  by destruct (nonzero code); [|destruct (JSON_parse out)].
Qed.

(** The loop over the forecasts leaves the handler with one answer only. *)
Lemma csv_rows_refusal (forecasts : list value) (csvContent : string)
    (resp : Response) :
  csv_rows forecasts csvContent = Val (inl resp) →
  resp = mkResponse 400
           (failure "Each forecast must have datetime and flare_probability").
Proof.
  revert csvContent. induction forecasts as [|forecast rest IH];
    intros csvContent; cbn [csv_rows]; [done |].
  unfold cbind. repeat case_match; try done.
  - by intros [= <-].
  - apply IH.
Qed.

(** A prediction operation answers, with status 200, 400, 404 or 500, or
    it waits for ever on a child that neither exits nor fails to start;
    no exception leaves the handler. *)
Theorem prediction_outcome (op : Prediction) (w : World) :
  (∃ resp, (predict dirname op w).1 = Ret resp
           ∧ (status resp = 200 ∨ status resp = 400
              ∨ status resp = 404 ∨ status resp = 500))
  ∨ ((predict dirname op w).1 = Pending
     ∧ ending (child w) = Running ∧ invoked (predict dirname op) w).
Proof.
  destruct op; run; repeat step;
    try (left; eexists; split; [reflexivity |]; cbn; tauto).
  all: try match goal with
           | H : verdict _ = Crash _ |- _ => by apply verdict_no_crash in H
           | H : csv_rows _ _ = Val (inl _) |- _ =>
               apply csv_rows_refusal in H as ->;
               left; eexists; split; [reflexivity |]; cbn; tauto
           end.
  all: right; split; [done |]; split; [by apply verdict_pending | apply cons_neq].
Qed.

(** A prediction request answered 400 or 404 has started no process and
    has left the disk as it was. *)
Theorem refusal_leaves_world (op : Prediction) (w : World) (resp : Response) :
  response (predict dirname op w) = Some resp →
  status resp = 400 ∨ status resp = 404 →
  (predict dirname op w).2 = w.
Proof.
  destruct op; run; repeat step; intros [= <-] [?|?]; try done.
  all: match goal with
       | H : csv_rows _ _ = Val (inl _) |- _ => apply csv_rows_refusal in H
       end; done.
Qed.

(** The status of a relayed result follows the truthiness of its
    [success]; a result that is [null] has no [success] to read and is
    answered 500 with the message of the [TypeError]. *)
Theorem relay_by_truthiness (op : Prediction) (w : World) (result : value) :
  invoked (predict dirname op) w →
  resolves w result →
  response (predict dirname op w)
  = Some (match JS.get result "success" with
          | Val success =>
              mkResponse (if JS.truthy success then 200 else 500) result
          | Thrown message => mkResponse 500 (failure message)
          end).
Proof.
  intros Hinv Hres. revert Hinv.
  destruct op; run; repeat step; intros; try done.
  all: unfold JS.not in *;
       repeat match goal with
              | H : negb ?b = _ |- _ => destruct b; try discriminate H
              end; done.
Qed.



(** ** The batch file *)

Lemma csv_rows_records (rows : list (string * float)) (rest : list value)
    (csvContent : string) :
  Forall (λ row, Str.nonempty row.1 = true) rows →
  csv_rows ((record <$> rows) ++ rest) csvContent
  = csv_rows rest (csvContent +:+ csv_lines rows).
Proof.
  intros Hrows. revert csvContent.
  induction Hrows as [|[datetime x] rows Hrow _ IH]; intros csvContent.
  - cbn. by rewrite RunFacts.append_nil_r.
  - destruct datetime as [|c datetime]; [done |].
    cbn [fmap list_fmap app csv_rows record fst snd].
    unfold JS.get, JS.not, JS.is_undefined. cbn. rewrite IH.
    cbn [csv_lines foldr]. unfold csv_line. cbn [fst snd].
    by rewrite !RunFacts.append_assoc.
Qed.

(** The loop writes the records out in order, one line
    [datetime,flare_probability] each, after the text it starts from. *)
Theorem csv_rows_content (rows : list (string * float)) (csvContent : string) :
  Forall (λ row, Str.nonempty row.1 = true) rows →
  csv_rows (record <$> rows) csvContent = Val (inr (csvContent +:+ csv_lines rows)).
Proof.
  intros Hrows. rewrite <- (app_nil_r (record <$> rows)).
  by rewrite csv_rows_records.
Qed.

(** The first forecast that lacks a field ends the request with 400: no
    file is written and no process started, whatever follows it. *)
Theorem batch_aborts_at_invalid (rows : list (string * float)) (bad : value)
    (rest : list value) (req_body : value) (w : World) :
  JS.get req_body "forecasts" = Val (VArray ((record <$> rows) ++ bad :: rest)) →
  Forall (λ row, Str.nonempty row.1 = true) rows →
  lacks_field bad →
  predict_batch dirname req_body w
  = (Ret (mkResponse 400
       (failure "Each forecast must have datetime and flare_probability")), w).
Proof.
  intros Hget Hrows (datetime & fp & Hd & Hp & Hlacks).
  run. rewrite Hget. cbn. unfold JS.not, JS.isArray, JS.elements. cbn.
  replace (length ((record <$> rows) ++ bad :: rest) =? 0) with false
    by (symmetry; apply Nat.eqb_neq; rewrite length_app; cbn; lia).
  cbn. rewrite csv_rows_records by done. cbn [csv_rows].
  rewrite Hd, Hp. cbn. by rewrite Hlacks.
Qed.

(** A request without a non-empty array of forecasts is answered 400 and
    changes nothing. *)
Theorem batch_without_forecasts (req_body forecasts : value) (w : World) :
  JS.get req_body "forecasts" = Val forecasts →
  JS.isArray forecasts = false ∨ forecasts = VArray [] →
  predict_batch dirname req_body w
  = (Ret (mkResponse 400 (failure "Missing or invalid forecasts array")), w).
Proof.
  intros Hget Hbad. run. rewrite Hget. cbn.
  destruct Hbad as [Hbad | ->]; [rewrite Hbad; cbn; by rewrite orb_true_r | done].
Qed.

(** ** What is passed on and what is left alone *)


(** A single prediction, a prediction from a named file and the listing
    change nothing on the disk; the listing changes nothing at all. *)
Theorem read_only_operations (w : World) :
  (∀ req_body, fs (predict_single dirname req_body w).2 = fs w)
  ∧ (∀ filename, fs (predict_csv dirname filename w).2 = fs w)
  ∧ (forecasts dirname w).2 = w.
Proof.
  split; [|split].
  - intros req_body. run. by repeat step.
  - intros filename. run. by repeat step.
  - run. by repeat step.
Qed.

(** When the forecasts directory is missing, or is a file, the listing
    answers 500 with the error of the file system. *)
Theorem forecasts_unreadable (w : World) :
  fs w !! FORECASTS_DIR dirname ≠ Some Dir →
  ∃ message,
    forecasts dirname w = (Ret (mkResponse 500 (failure message)), w)
    ∧ (message = Fs.enoent "scandir" (FORECASTS_DIR dirname)
       ∨ message = Fs.enotdir "scandir" (FORECASTS_DIR dirname)).
Proof.
  intros Hdir. run.
  destruct (fs w !! FORECASTS_DIR dirname) as [[]|]; try done; cbn;
    eexists; (split; [reflexivity |]); auto.
Qed.

(** ** The promise of [executePython] *)

Lemma ending_from_more (out err : string) (events more : list ProcEvent) :
  ending_from out err events ≠ Running →
  ending_from out err (events ++ more) = ending_from out err events.
Proof.
  revert out err. induction events as [|[] events IH]; intros out err; cbn;
    try done; apply IH.
Qed.

(** The promise settles once: after the first [close] or [error], no
    later event changes what the invocation comes to. *)
Theorem executePython_settles_once (args : list value) (w w' : World)
    (more : list ProcEvent) :
  child w' = child w ++ more →
  ending (child w) ≠ Running →
  (executePython dirname args w').1 = (executePython dirname args w).1.
Proof.
  intros Hchild Hend. rewrite !executePython_run. cbn [fst].
  rewrite Hchild. unfold ending in *. by rewrite ending_from_more.
Qed.


(** [getModelInfo] never rejects: when its invocation settles it gives
    the predictor's answer, or the basic information if the invocation
    failed in any way. *)
Theorem getModelInfo_falls_back (w : World) :
  ending (child w) ≠ Running →
  ∃ info, (getModelInfo dirname w).1 = Ret info
          ∧ (resolves w info ∨ (info = basic_info ∧ ∃ message, rejects w message)).
Proof.
  intros Hend. unfold getModelInfo, try_catch, resolves, rejects.
  rewrite executePython_run.
  destruct (verdict (ending (child w))) as [info|message| |message] eqn:Hv; cbn.
  - exists info. by split; [|left].
  - exists basic_info. split; [done |]. right. split; [done |]. by exists message.
  - by apply verdict_pending in Hv.
  - by apply verdict_no_crash in Hv.
Qed.


(** ** The metadata operation *)

(** What the listeners of [GET /model/info] make of a run. *)
Lemma info_child_run (script : string) (events : list ProcEvent)
    (out err : string) (w : World) :
  info_child script events out err w
  = match ending_from out err events with
    | Exited code out' err' => info_child script [Close code] out' err' w
    | NotStarted message => (Crash message, w)
    | Running => (Pending, w)
    end.
Proof.
  revert out err. induction events as [|[] events IH]; intros out err; cbn;
    try done; apply IH.
Qed.

(** Once its script is written, the metadata operation answers by the
    exit code of [python3]: 500 with the captured standard error as it
    is, 200 with the parsed output as [model], or 500 when the output is
    not JSON. *)
Theorem model_info_answers (w : World) (code : option Z) (out err : string) :
  fs w !! Path.dirname (temp_script w) = Some Dir →
  fs w !! temp_script w ≠ Some Dir →
  ending (child w) = Exited code out err →
  (code ≠ Some 0%Z →
   response (model_info dirname w) = Some (mkResponse 500 (failure err)))
  ∧ (∀ info, code = Some 0%Z → JSON_parse out = Val info →
       response (model_info dirname w)
       = Some (mkResponse 200
                 (VObject [("success", VBool true); ("model", info)])))
  ∧ (∀ message, code = Some 0%Z → JSON_parse out = Thrown message →
       response (model_info dirname w)
       = Some (mkResponse 500 (failure "Failed to parse model info"))).
Proof.
  intros Hdir Hfree Hend. unfold ending in Hend. unfold temp_script in *.
  run. rewrite Hdir.
  destruct (fs w !! Path.join _) as [[]|] eqn:Hpath; try done; cbn;
    rewrite info_child_run; cbn; rewrite Hend; run; rewrite lookup_insert_eq; cbn.
  all: split; [|split].
  all: try (intros Hcode; by rewrite (nonzero_true code Hcode)).
  all: try (intros info -> Hparse; cbn; by rewrite Hparse).
Qed.

(** It removes its script as soon as the child closes, whatever the exit
    code, and leaves every other path as it was. *)
Theorem model_info_removes_script (w : World) (code : option Z) (out err : string) :
  fs w !! Path.dirname (temp_script w) = Some Dir →
  fs w !! temp_script w ≠ Some Dir →
  ending (child w) = Exited code out err →
  fs (model_info dirname w).2 !! temp_script w = None
  ∧ ∀ path, path ≠ temp_script w →
            fs (model_info dirname w).2 !! path = fs w !! path.
Proof.
  intros Hdir Hfree Hend. unfold ending in Hend. unfold temp_script in *.
  run. rewrite Hdir.
  destruct (fs w !! Path.join _) as [[]|] eqn:Hpath; try done; cbn;
    rewrite info_child_run; cbn; rewrite Hend; run; rewrite lookup_insert_eq; cbn.
  all: destruct (nonzero code); [|destruct (JSON_parse out)]; cbn.
  all: split; [by rewrite lookup_delete_eq |].
  all: intros path Hpath'; by rewrite lookup_delete_ne, lookup_insert_ne.
Qed.

(** When [python3] cannot be started nobody listens to the [error]: the
    server ends on it, the request is not answered and the script stays
    on the disk. *)
Theorem model_info_start_failure (w : World) (message : string) :
  fs w !! Path.dirname (temp_script w) = Some Dir →
  fs w !! temp_script w ≠ Some Dir →
  ending (child w) = NotStarted message →
  (model_info dirname w).1 = Crash message
  ∧ fs (model_info dirname w).2 !! temp_script w
    = Some (File (pythonCode dirname)).
Proof.
  intros Hdir Hfree Hend. unfold ending in Hend. unfold temp_script in *.
  run. rewrite Hdir.
  destruct (fs w !! Path.join _) as [[]|] eqn:Hpath; try done; cbn;
    rewrite info_child_run; cbn; rewrite Hend; cbn; by rewrite lookup_insert_eq.
Qed.

(** ** Staging *)



(** ** The guard of the named files *)

Lemma FORECASTS_DIR_absolute (names : list string) :
  Forall (λ name, plain name = true) names →
  FORECASTS_DIR (absolute names) = absolute (names ++ ["forecasts"]).
Proof. intros Hnames. unfold FORECASTS_DIR. by rewrite PathFacts.join_plain. Qed.

(** In a deployment directory of plain names, a file name that passes
    the guard resolves to the forecasts directory itself (for [.]) or to
    an entry right under it: that path, which exists, is the only one the
    predictor is pointed at. *)
Theorem csv_stays_inside (names : list string) (filename : string) (w : World) :
  dirname = absolute names →
  Forall (λ name, plain name = true) names →
  Str.nonempty filename = true →
  invoked (predict_csv dirname filename) w →
  ∃ target,
    spawned (predict_csv dirname filename w).2
    = (pythonPath w, [VString (PYTHON_SCRIPT dirname); VString "batch";
                      VString target]) :: spawned w
    ∧ is_Some (fs w !! target)
    ∧ (target = FORECASTS_DIR dirname
       ∨ target = FORECASTS_DIR dirname +:+ "/" +:+ filename).
Proof.
  intros Hroot Hnames Hne.
  assert (Hnames' : Forall (λ name, plain name = true) (names ++ ["forecasts"])).
  { apply Forall_app. split; [done |]. by apply Forall_cons. }
  run.
  destruct (Str.includes filename "..") eqn:Hup; [done |].
  destruct (Str.includes filename "/") eqn:Hslash; [done |]. cbn.
  destruct (fs w !! Path.join _) as [n|] eqn:Hfile; [|done]. cbn.
  repeat step; intros _.
  all: eexists; split; [reflexivity |]; split; [by eexists |].
  all: rewrite Hroot, FORECASTS_DIR_absolute by done.
  all: rewrite PathFacts.join_plain by done.
  all: destruct (String.eqb filename "."); [left; by rewrite app_nil_r | right].
  all: unfold absolute; rewrite PathFacts.join_snoc by by destruct names.
  all: by rewrite RunFacts.append_assoc.
Qed.

End ServerFacts.

(** ** Starting up *)

Module MkdirFacts.

Lemma make_keeps (path : string) (dirs : list string) (w : World)
    (p : string) (n : node) :
  fs w !! p = Some n → fs (Mkdir.make path dirs w).2 !! p = Some n.
Proof.
  revert w. induction dirs as [|dir dirs IH]; intros w Hp; [done |].
  cbn [Mkdir.make]. destruct (fs w !! dir) as [[]|] eqn:Hdir; [done | by apply IH |].
  apply IH. cbn. rewrite lookup_insert_ne; [done |]. congruence.
Qed.

(** Making directories touches the disk only, and ends by returning or
    by throwing. *)
Lemma make_frame (path : string) (dirs : list string) (w : World) :
  ∃ disk, (Mkdir.make path dirs w).2 = set_fs (λ _, disk) w
          ∧ ((Mkdir.make path dirs w).1 = Ret ()
             ∨ ∃ message, (Mkdir.make path dirs w).1 = Throw message).
Proof.
  revert w. induction dirs as [|dir dirs IH]; intros w.
  - exists (fs w). split; [by destruct w | by left].
  - cbn [Mkdir.make]. destruct (fs w !! dir) as [[]|] eqn:Hdir.
    + exists (fs w). split; [by destruct w | right; by eexists].
    + apply IH.
    + destruct (IH (set_fs <[dir:=Dir]> w)) as (disk & -> & Hout).
      by exists disk.
Qed.

Lemma make_done (path : string) (dirs : list string) (w : World) (dir : string) :
  (Mkdir.make path dirs w).1 = Ret () → In dir dirs →
  fs (Mkdir.make path dirs w).2 !! dir = Some Dir.
Proof.
  revert w. induction dirs as [|dir' dirs IH]; intros w Hret Hin; [done |].
  cbn [Mkdir.make] in *. destruct (fs w !! dir') as [[]|] eqn:Hdir; [done | |].
  - destruct Hin as [-> | Hin]; [by apply make_keeps | by apply IH].
  - destruct Hin as [-> | Hin]; [|by apply IH].
    apply make_keeps. cbn. by rewrite lookup_insert_eq.
Qed.

Lemma make_again (path : string) (dirs : list string) (w : World) :
  Mkdir.make path dirs (Mkdir.make path dirs w).2 = Mkdir.make path dirs w.
Proof.
  revert w. induction dirs as [|dir dirs IH]; intros w; [done |].
  cbn [Mkdir.make]. destruct (fs w !! dir) as [[]|] eqn:Hdir.
  - cbn. by rewrite Hdir.
  - cbn [Mkdir.make].
    rewrite (make_keeps path dirs w dir Dir Hdir). apply IH.
  - cbn [Mkdir.make].
    rewrite (make_keeps path dirs (set_fs <[dir:=Dir]> w) dir Dir)
      by (cbn; by rewrite lookup_insert_eq).
    apply IH.
Qed.

Lemma make_present (path : string) (dirs : list string) (w : World) :
  (∀ dir, In dir dirs → fs w !! dir = Some Dir) →
  Mkdir.make path dirs w = (Ret (), w).
Proof.
  induction dirs as [|dir dirs IH]; intros Hdirs; [done |].
  cbn [Mkdir.make]. rewrite (Hdirs dir) by by left.
  apply IH. intros dir' Hin. apply Hdirs. by right.
Qed.

(** What the console holds plays no part in it. *)
Lemma make_log (path : string) (dirs : list string) (line : string) (w : World) :
  Mkdir.make path dirs (log_console line w)
  = ((Mkdir.make path dirs w).1, log_console line (Mkdir.make path dirs w).2).
Proof.
  revert w. induction dirs as [|dir dirs IH]; intros w; [done |].
  cbn [Mkdir.make]. cbn [fs log_console].
  destruct (fs w !! dir) as [[]|] eqn:Hdir; [done | apply IH |].
  change (set_fs <[dir:=Dir]> (log_console line w))
    with (log_console line (set_fs <[dir:=Dir]> w)).
  apply IH.
Qed.

End MkdirFacts.

Section StartupFacts.
Context `{Runtime} (dirname : string).

Ltac unfold_ensure :=
  unfold ensureDirectories, try_catch, mbind, M_bind, Mkdir.recursive,
    console_log, console_error.

(** [ensureDirectories] always returns; it leaves every entry of the disk
    as it was, and either it reports an error or the forecasts and the
    uploads directories are there. *)
Theorem ensureDirectories_outcome (w : World) :
  (ensureDirectories dirname w).1 = Ret ()
  ∧ (∀ path n, fs w !! path = Some n →
               fs (ensureDirectories dirname w).2 !! path = Some n)
  ∧ ((console (ensureDirectories dirname w).2
      = "âœ“ Directories initialized" :: console w
      ∧ fs (ensureDirectories dirname w).2 !! FORECASTS_DIR dirname = Some Dir
      ∧ fs (ensureDirectories dirname w).2 !! "uploads" = Some Dir)
     ∨ ∃ err, console (ensureDirectories dirname w).2
              = ("Error creating directories: " +:+ err) :: console w).
Proof.
  unfold_ensure.
  set (dirs1 := Mkdir.ancestors _ (FORECASTS_DIR dirname) ++ [FORECASTS_DIR dirname]).
  set (dirs2 := Mkdir.ancestors _ "uploads" ++ ["uploads"]).
  assert (Hin1 : In (FORECASTS_DIR dirname) dirs1)
    by (apply in_app_iff; right; by left).
  assert (Hin2 : In "uploads" dirs2) by (apply in_app_iff; right; by left).
  clearbody dirs1 dirs2.
  pose proof (MkdirFacts.make_keeps (FORECASTS_DIR dirname) dirs1 w) as Hkeep1.
  pose proof (MkdirFacts.make_done (FORECASTS_DIR dirname) dirs1 w
                (FORECASTS_DIR dirname)) as Hdone1.
  destruct (MkdirFacts.make_frame (FORECASTS_DIR dirname) dirs1 w)
    as (disk1 & Hw1 & Hout1).
  destruct (Mkdir.make (FORECASTS_DIR dirname) dirs1 w) as [o1 w1].
  cbn [fst snd] in *. subst w1.
  destruct Hout1 as [-> | [message ->]]; cbn.
  2:{ split; [reflexivity |]. split; [exact Hkeep1 |]. right. by eexists. }
  pose proof (MkdirFacts.make_keeps "uploads" dirs2 (set_fs (λ _, disk1) w)) as Hkeep2.
  pose proof (MkdirFacts.make_done "uploads" dirs2 (set_fs (λ _, disk1) w) "uploads")
    as Hdone2.
  destruct (MkdirFacts.make_frame "uploads" dirs2 (set_fs (λ _, disk1) w))
    as (disk2 & Hw2 & Hout2).
  destruct (Mkdir.make "uploads" dirs2 (set_fs (λ _, disk1) w)) as [o2 w2].
  cbn [fst snd] in *. subst w2.
  destruct Hout2 as [-> | [message ->]]; cbn.
  2:{ split; [reflexivity |]. split; [intros path n Hpath; by apply Hkeep2, Hkeep1 |].
      right. by eexists. }
  split; [reflexivity |]. split; [intros path n Hpath; by apply Hkeep2, Hkeep1 |].
  left. split; [reflexivity |]. split.
  - by apply Hkeep2, Hdone1.
  - by apply Hdone2.
Qed.

(** Run again, it changes nothing more on the disk. *)
Theorem ensureDirectories_again (w : World) :
  fs (ensureDirectories dirname (ensureDirectories dirname w).2).2
  = fs (ensureDirectories dirname w).2.
Proof.
  unfold_ensure.
  set (dirs1 := Mkdir.ancestors _ (FORECASTS_DIR dirname) ++ [FORECASTS_DIR dirname]).
  set (dirs2 := Mkdir.ancestors _ "uploads" ++ ["uploads"]).
  clearbody dirs1 dirs2.
  pose proof (MkdirFacts.make_again (FORECASTS_DIR dirname) dirs1 w) as Hagain1.
  pose proof (MkdirFacts.make_done (FORECASTS_DIR dirname) dirs1 w) as Hdone1.
  destruct (MkdirFacts.make_frame (FORECASTS_DIR dirname) dirs1 w)
    as (disk1 & Hw1 & Hout1).
  destruct (Mkdir.make (FORECASTS_DIR dirname) dirs1 w) as [o1 w1].
  cbn [fst snd] in *. subst w1.
  destruct Hout1 as [-> | [message ->]]; cbn.
  2:{ by rewrite MkdirFacts.make_log, Hagain1. }
  pose proof (MkdirFacts.make_again "uploads" dirs2 (set_fs (λ _, disk1) w)) as Hagain2.
  pose proof (MkdirFacts.make_keeps "uploads" dirs2 (set_fs (λ _, disk1) w)) as Hkeep2.
  pose proof (MkdirFacts.make_done "uploads" dirs2 (set_fs (λ _, disk1) w)) as Hdone2.
  destruct (MkdirFacts.make_frame "uploads" dirs2 (set_fs (λ _, disk1) w))
    as (disk2 & Hw2 & Hout2).
  destruct (Mkdir.make "uploads" dirs2 (set_fs (λ _, disk1) w)) as [o2 w2].
  cbn [fst snd] in *. subst w2.
  assert (Hpresent : Mkdir.make (FORECASTS_DIR dirname) dirs1
                       (set_fs (λ _, disk2) (set_fs (λ _, disk1) w))
                     = (Ret (), set_fs (λ _, disk2) (set_fs (λ _, disk1) w))).
  { apply MkdirFacts.make_present. intros dir Hin. apply Hkeep2. by apply Hdone1. }
  destruct Hout2 as [-> | [message ->]]; cbn [fst snd];
    rewrite MkdirFacts.make_log, Hpresent; cbn [fst snd];
    rewrite MkdirFacts.make_log, Hagain2; done.
Qed.

End StartupFacts.

(** ** The health check *)

Section HealthFacts.
Context `{Runtime} (dirname : string).

(** The health check changes nothing; it answers 200 with the time of the
    request exactly when the model file and the predictor's script are
    both there, and otherwise 500 with the error for the first of the two
    that is missing, the model file first. *)
Theorem health_reports (w : World) :
  (health dirname w).2 = w
  ∧ (is_Some (fs w !! MODEL_PATH dirname) →
     is_Some (fs w !! PYTHON_SCRIPT dirname) →
     response (health dirname w)
     = Some (mkResponse 200
               (VObject [("status", VString "healthy");
                         ("timestamp", VString (Date.toISOString (clock w)));
                         ("model", VString "available");
                         ("python", VString "available")])))
  ∧ (fs w !! MODEL_PATH dirname = None →
     response (health dirname w)
     = Some (mkResponse 500
               (unhealthy (Fs.enoent "access" (MODEL_PATH dirname)))))
  ∧ (is_Some (fs w !! MODEL_PATH dirname) →
     fs w !! PYTHON_SCRIPT dirname = None →
     response (health dirname w)
     = Some (mkResponse 500
               (unhealthy (Fs.enoent "access" (PYTHON_SCRIPT dirname))))).
Proof.
  unfold health, response, try_catch, mbind, M_bind, Fs.access, Date_now, respond,
    mret, M_ret.
  split; [|split; [|split]].
  - by destruct (fs w !! MODEL_PATH dirname), (fs w !! PYTHON_SCRIPT dirname).
  - by intros [? ->] [? ->].
  - by intros ->.
  - by intros [? ->] ->.
Qed.

End HealthFacts.

(** ** Runs of the deployed server *)

Section Runs.
Import Deployed.
#[local] Existing Instance Mini.runtime.

Lemma executePython_settles_witness :
  (executePython root [VString "info"] (world None succeeds)).1 = Ret prediction
  ∧ (executePython root [VString "info"] (world None fails)).1
    = Throw "Python script failed: model load failed"
  ∧ (executePython root [VString "info"] (world None [StdoutData "oops"; Close (Some 0%Z)])).1
    = Throw "Failed to parse Python output: Unexpected token in JSON"
  ∧ (executePython root [VString "info"] (world None absent)).1
    = Throw "Failed to start Python: spawn python ENOENT".
Proof.
  split; [|split; [|split]].
  - destruct (executePython_settles root [VString "info"] (world None succeeds))
      as (Hres & _).
    apply Hres. exists prediction_text, "". split; reflexivity.
  - destruct (executePython_settles root [VString "info"] (world None fails))
      as (_ & Hexit & _).
    apply (Hexit (Some 1%Z) "" "model load failed"); [reflexivity | discriminate].
  - destruct (executePython_settles root [VString "info"]
                (world None [StdoutData "oops"; Close (Some 0%Z)]))
      as (_ & _ & Hparse & _).
    apply (Hparse "oops" ""); reflexivity.
  - destruct (executePython_settles root [VString "info"] (world None absent))
      as (_ & _ & _ & Hstart).
    apply Hstart. reflexivity.
Defined.

Lemma relay_by_success_witness :
  invoked (predict root (Single (forecast "2026-02-01 12:00:00" 0.75)))
    (world None succeeds)
  ∧ resolves (world None succeeds) prediction
  ∧ response (predict root (Single (forecast "2026-02-01 12:00:00" 0.75))
                (world None succeeds))
    = Some (mkResponse 200 prediction)
  ∧ invoked (predict root (Upload (Some "uploads/3f2a9c"))) (world None refuses)
  ∧ resolves (world None refuses) refusal
  ∧ response (predict root (Upload (Some "uploads/3f2a9c")) (world None refuses))
    = Some (mkResponse 500 refusal).
Proof.
  assert (Hinv : invoked (predict root (Single (forecast "2026-02-01 12:00:00" 0.75)))
                   (world None succeeds)) by (vm_compute; discriminate).
  assert (Hres : resolves (world None succeeds) prediction) by reflexivity.
  assert (Hinv' : invoked (predict root (Upload (Some "uploads/3f2a9c")))
                    (world None refuses)) by (vm_compute; discriminate).
  assert (Hres' : resolves (world None refuses) refusal) by reflexivity.
  split; [exact Hinv | split; [exact Hres | split]].
  - apply (relay_by_success root _ _ _ Hinv Hres). reflexivity.
  - split; [exact Hinv' | split; [exact Hres' |]].
    apply (relay_by_success root _ _ _ Hinv' Hres'). reflexivity.
Defined.

Lemma single_failure_message_witness :
  invoked (predict_single root (forecast "2026-02-01 12:00:00" 0.75))
    (world None fails)
  ∧ ending fails = Exited (Some 1%Z) "" "model load failed"
  ∧ response (predict_single root (forecast "2026-02-01 12:00:00" 0.75)
                (world None fails))
    = Some (mkResponse 500 (failure "Python script failed: model load failed")).
Proof.
  assert (Hinv : invoked (predict_single root (forecast "2026-02-01 12:00:00" 0.75))
                   (world None fails)) by (vm_compute; discriminate).
  split; [exact Hinv | split; [reflexivity |]].
  apply (single_failure_message root _ _ (Some 1%Z) "" Hinv); [reflexivity | discriminate].
Defined.

(** C3, as stated, fails: the process exits with code 1 having written
    [model load failed] to its standard error, and the body of the answer
    is not [{success: false, error: "model load failed"}]. *)
Lemma single_failure_message_not_verbatim :
  invoked (predict_single root (forecast "2026-02-01 12:00:00" 0.75))
    (world None fails)
  ∧ ending (child (world None fails)) = Exited (Some 1%Z) "" "model load failed"
  ∧ response (predict_single root (forecast "2026-02-01 12:00:00" 0.75)
                (world None fails))
    ≠ Some (mkResponse 500 (failure "model load failed")).
Proof.
  split; [vm_compute; discriminate | split; [reflexivity |]].
  vm_compute. discriminate.
Qed.

Lemma predict_csv_guard_witness :
  predict_csv root "../predict.py" (world None succeeds)
  = (Ret (mkResponse 400 (failure "Invalid filename")), world None succeeds)
  ∧ predict_csv root "march.csv" (world None succeeds)
    = (Ret (mkResponse 404 (failure "File not found: march.csv")),
       world None succeeds).
Proof.
  split.
  - destruct (predict_csv_guard root "../predict.py" (world None succeeds))
      as (Hbad & _).
    apply Hbad. left. reflexivity.
  - destruct (predict_csv_guard root "march.csv" (world None succeeds))
      as (_ & Habsent).
    apply Habsent; vm_compute; reflexivity.
Defined.

Lemma single_out_of_range_witness :
  ∃ message,
    predict_single root (forecast "2026-02-01 12:00:00" 1.5) (world None succeeds)
    = (Ret (mkResponse 400 (failure message)), world None succeeds)
    ∧ Str.includes message "flare_probability" = true.
Proof.
  apply (single_out_of_range root _ (world None succeeds) 1.5);
    [reflexivity | right; reflexivity].
Defined.

Lemma presence_tests_witness :
  spawned (predict_single root (forecast "2026-02-01 12:00:00" 0)
             (world None succeeds)).2
  = [("python", [VString "/srv/app/predict.py"; VString "2026-02-01 12:00:00";
                 VString "0"])]
  ∧ predict_single root (forecast "" 0.75) (world None succeeds)
    = (Ret (mkResponse 400
         (failure "Missing required fields: datetime, flare_probability")),
       world None succeeds).
Proof.
  split.
  - destruct (presence_tests root (forecast "2026-02-01 12:00:00" 0)
                (world None succeeds)) as (Hzero & _).
    apply (Hzero (VString "2026-02-01 12:00:00")); reflexivity.
  - destruct (presence_tests root (forecast "" 0.75) (world None succeeds))
      as (_ & Hempty).
    apply Hempty. reflexivity.
Defined.

Lemma forecasts_lists_csv_witness :
  ∃ files,
    forecasts root (world None [])
    = (Ret (mkResponse 200
         (VObject [("success", VBool true);
                   ("count", VNum (JS.of_nat (length files)));
                   ("files", VArray (VString <$> files))])), world None [])
    ∧ files = ["solar_flare_forecast.csv"].
Proof.
  destruct (forecasts_lists_csv root (world None [])) as (files & Hrun & Hfiles & _);
    [reflexivity |].
  exists files. split; [exact Hrun |]. rewrite Hfiles. vm_compute. reflexivity.
Defined.

(** C1 fails on the code. The predictor exits with code 1: the batch
    request is answered 500 and its temporary file is still on the disk;
    the same holds of an uploaded file. *)
Theorem temp_file_survives_rejection :
  response (predict_batch root (one_forecast 0.75) (world None fails))
  = Some (mkResponse 500 (failure "Python script failed: model load failed"))
  ∧ fs (predict_batch root (one_forecast 0.75) (world None fails)).2
    !! "uploads/temp_1767225600000.csv"
    = Some (File ("DateTime,flare_probability" +:+ Str.nl
                  +:+ "2026-02-01 12:00:00,0.75" +:+ Str.nl))
  ∧ response (predict_upload root (Some "uploads/3f2a9c") (world None fails))
    = Some (mkResponse 500 (failure "Python script failed: model load failed"))
  ∧ fs (predict_upload root (Some "uploads/3f2a9c") (world None fails)).2
    !! "uploads/3f2a9c"
    = Some (File "DateTime,flare_probability").
Proof. repeat apply conj; vm_compute; reflexivity. Qed.

(** C2 fails on the code. A batch whose only record has
    [flare_probability] 1.5 is not refused: the file is written, the
    predictor is started on it and its answer is relayed with status 200. *)
Theorem batch_out_of_range_reaches_predictor :
  PrimFloat.ltb 1 1.5 = true
  ∧ response (predict_batch root (one_forecast 1.5) (world None succeeds))
    = Some (mkResponse 200 prediction)
  ∧ spawned (predict_batch root (one_forecast 1.5) (world None succeeds)).2
    = [("python", [VString "/srv/app/predict.py"; VString "batch";
                   VString "uploads/temp_1767225600000.csv"])].
Proof. repeat apply conj; vm_compute; reflexivity. Qed.

(** C7 fails on the code. With [PYTHON_PATH] set, a prediction starts the
    interpreter it names and the metadata operation starts [python3]. *)
Theorem model_info_ignores_PYTHON_PATH :
  spawned (predict_csv root "solar_flare_forecast.csv"
             (world (Some "/opt/venv/bin/python") succeeds)).2
  = [("/opt/venv/bin/python",
      [VString "/srv/app/predict.py"; VString "batch";
       VString "/srv/app/forecasts/solar_flare_forecast.csv"])]
  ∧ spawned (model_info root (world (Some "/opt/venv/bin/python") succeeds)).2
    = [("python3", [VString "uploads/info_1767225600000.py"])].
Proof. repeat apply conj; vm_compute; reflexivity. Qed.

End Runs.

(** ** More runs of the deployed server *)

Section MoreRuns.
Import Deployed.
#[local] Existing Instance Mini.runtime.

Lemma refusal_leaves_world_witness :
  response (predict root (Csv "march.csv") (world None succeeds))
  = Some (mkResponse 404 (failure "File not found: march.csv"))
  ∧ (predict root (Csv "march.csv") (world None succeeds)).2 = world None succeeds.
Proof.
  split; [reflexivity |].
  apply (refusal_leaves_world root (Csv "march.csv") (world None succeeds)
           (mkResponse 404 (failure "File not found: march.csv")));
    [reflexivity | right; reflexivity].
Defined.

Lemma relay_by_truthiness_witness :
  invoked (predict root (Csv "solar_flare_forecast.csv"))
    (world None [StdoutData "null"; Close (Some 0%Z)])
  ∧ resolves (world None [StdoutData "null"; Close (Some 0%Z)]) VNull
  ∧ response (predict root (Csv "solar_flare_forecast.csv")
                (world None [StdoutData "null"; Close (Some 0%Z)]))
    = Some (mkResponse 500
              (failure "Cannot read properties of null (reading 'success')")).
Proof.
  assert (Hinv : invoked (predict root (Csv "solar_flare_forecast.csv"))
                   (world None [StdoutData "null"; Close (Some 0%Z)]))
    by (vm_compute; discriminate).
  assert (Hres : resolves (world None [StdoutData "null"; Close (Some 0%Z)]) VNull)
    by reflexivity.
  split; [exact Hinv | split; [exact Hres |]].
  exact (relay_by_truthiness root _ _ _ Hinv Hres).
Defined.


Lemma batch_removes_temp_file_witness :
  invoked (predict_batch root (one_forecast 0.75)) (world None succeeds)
  ∧ resolves (world None succeeds) prediction
  ∧ fs (predict_batch root (one_forecast 0.75) (world None succeeds)).2
    !! "uploads/temp_1767225600000.csv" = None.
Proof.
  assert (Hinv : invoked (predict_batch root (one_forecast 0.75))
                   (world None succeeds)) by (vm_compute; discriminate).
  assert (Hres : resolves (world None succeeds) prediction) by reflexivity.
  split; [exact Hinv | split; [exact Hres |]].
  exact (batch_removes_temp_file root _ _ _ Hinv Hres).
Defined.

Lemma upload_removes_file_witness :
  fs (world None succeeds) !! "uploads/3f2a9c" = Some (File "DateTime,flare_probability")
  ∧ fs (predict_upload root (Some "uploads/3f2a9c") (world None succeeds)).2
    !! "uploads/3f2a9c" = None.
Proof.
  assert (Hfile : fs (world None succeeds) !! "uploads/3f2a9c"
                  = Some (File "DateTime,flare_probability")) by reflexivity.
  split; [exact Hfile |].
  apply (upload_removes_file root _ _ _ prediction Hfile). reflexivity.
Defined.

Lemma csv_rows_content_witness :
  csv_rows (record <$> [("2026-02-01 12:00:00", 0.75%float);
                        ("2026-02-01 13:00:00", 0.5%float)])
    ("DateTime,flare_probability" +:+ Str.nl)
  = Val (inr (("DateTime,flare_probability" +:+ Str.nl)
              +:+ csv_lines [("2026-02-01 12:00:00", 0.75%float);
                             ("2026-02-01 13:00:00", 0.5%float)])).
Proof.
  apply csv_rows_content. repeat (apply List.Forall_cons; [reflexivity |]). apply List.Forall_nil.
Defined.

Lemma batch_aborts_at_invalid_witness :
  lacks_field (VObject [("datetime", VString "2026-02-01 13:00:00")])
  ∧ predict_batch root
      (VObject [("forecasts",
         VArray [record ("2026-02-01 12:00:00", 0.75%float);
                 VObject [("datetime", VString "2026-02-01 13:00:00")];
                 VNull])])
      (world None succeeds)
    = (Ret (mkResponse 400
         (failure "Each forecast must have datetime and flare_probability")),
       world None succeeds).
Proof.
  assert (Hbad : lacks_field (VObject [("datetime", VString "2026-02-01 13:00:00")])).
  { exists (VString "2026-02-01 13:00:00"), VUndefined. by repeat split. }
  split; [exact Hbad |].
  apply (batch_aborts_at_invalid root [("2026-02-01 12:00:00", 0.75%float)]
           (VObject [("datetime", VString "2026-02-01 13:00:00")]) [VNull]);
    [reflexivity | | exact Hbad].
  apply List.Forall_cons; [reflexivity | apply List.Forall_nil].
Defined.

Lemma batch_without_forecasts_witness :
  predict_batch root (VObject [("forecasts", VArray [])]) (world None succeeds)
  = (Ret (mkResponse 400 (failure "Missing or invalid forecasts array")),
     world None succeeds)
  ∧ predict_batch root (VObject [("forecasts", VString "all")]) (world None succeeds)
    = (Ret (mkResponse 400 (failure "Missing or invalid forecasts array")),
       world None succeeds).
Proof.
  split.
  - apply (batch_without_forecasts root _ (VArray [])); [reflexivity | by right].
  - apply (batch_without_forecasts root _ (VString "all")); [reflexivity | by left].
Defined.


Lemma forecasts_unreadable_witness :
  ∃ message,
    forecasts "/srv/elsewhere" (world None [])
    = (Ret (mkResponse 500 (failure message)), world None [])
    ∧ (message = Fs.enoent "scandir" (FORECASTS_DIR "/srv/elsewhere")
       ∨ message = Fs.enotdir "scandir" (FORECASTS_DIR "/srv/elsewhere")).
Proof.
  apply (forecasts_unreadable "/srv/elsewhere" (world None [])).
  vm_compute. discriminate.
Defined.

Lemma executePython_settles_once_witness :
  (executePython root [VString "info"] (world None (succeeds ++ fails))).1
  = (executePython root [VString "info"] (world None succeeds)).1.
Proof.
  apply (executePython_settles_once root _ (world None succeeds) _ fails);
    [reflexivity | vm_compute; discriminate].
Defined.


Lemma getModelInfo_falls_back_witness :
  ∃ info, (getModelInfo root (world None fails)).1 = Ret info
          ∧ (resolves (world None fails) info
             ∨ (info = basic_info ∧ ∃ message, rejects (world None fails) message)).
Proof.
  apply (getModelInfo_falls_back root (world None fails)).
  vm_compute. discriminate.
Defined.

Lemma model_info_answers_witness :
  response (model_info root (world None fails))
  = Some (mkResponse 500 (failure "model load failed"))
  ∧ response (model_info root (world None succeeds))
    = Some (mkResponse 200 (VObject [("success", VBool true); ("model", prediction)])).
Proof.
  split.
  - destruct (model_info_answers root (world None fails) (Some 1%Z) "" "model load failed")
      as (Hfail & _); [reflexivity | vm_compute; discriminate | reflexivity |].
    apply Hfail. discriminate.
  - destruct (model_info_answers root (world None succeeds) (Some 0%Z) prediction_text "")
      as (_ & Hok & _); [reflexivity | vm_compute; discriminate | reflexivity |].
    apply Hok; reflexivity.
Defined.

Lemma model_info_removes_script_witness :
  fs (model_info root (world None fails)).2 !! "uploads/info_1767225600000.py" = None.
Proof.
  destruct (model_info_removes_script root (world None fails) (Some 1%Z) ""
              "model load failed") as (Hgone & _);
    [reflexivity | vm_compute; discriminate | reflexivity |].
  exact Hgone.
Defined.

Lemma model_info_start_failure_witness :
  (model_info root (world None absent)).1 = Crash "spawn python ENOENT"
  ∧ fs (model_info root (world None absent)).2 !! "uploads/info_1767225600000.py"
    = Some (File (pythonCode root)).
Proof.
  apply (model_info_start_failure root (world None absent) "spawn python ENOENT");
    [reflexivity | vm_compute; discriminate | reflexivity].
Defined.


Lemma csv_stays_inside_witness :
  ∃ target,
    spawned (predict_csv root "solar_flare_forecast.csv" (world None succeeds)).2
    = (pythonPath (world None succeeds),
       [VString (PYTHON_SCRIPT root); VString "batch"; VString target])
      :: spawned (world None succeeds)
    ∧ is_Some (fs (world None succeeds) !! target)
    ∧ (target = FORECASTS_DIR root
       ∨ target = FORECASTS_DIR root +:+ "/" +:+ "solar_flare_forecast.csv").
Proof.
  apply (csv_stays_inside root ["srv"; "app"] "solar_flare_forecast.csv"
           (world None succeeds)).
  - reflexivity.
  - repeat (apply List.Forall_cons; [reflexivity |]). apply List.Forall_nil.
  - reflexivity.
  - vm_compute. discriminate.
Defined.

End MoreRuns.
